(** * ChatSql: the local chat store (Sqlite/ChatSql.py)

    A shallow embedding of the [ChatSql] repository class: the three tables
    (mask, dialogue, message), the session primitives the methods call, the
    eleven methods themselves with their [try]/[except] boundary, and the
    theorems that settle the specification's claims about them.

    Conventions of the model.
    - A Python [str] is a Rocq [string] holding its UTF-8 bytes.  Splitting at
      a space, searching an ASCII needle, comparing and joining give the same
      answer on the bytes as on the code points.
    - A table is the list of its rows in rowid order, which is the order in
      which SQLite scans it when a query has no ORDER BY.
    - Every method runs in [M], a state-and-exception monad over [World]: the
      database file, the lines sent to [app_logger.info], the lines printed,
      the wall clock, and an oracle saying which of the coming storage
      accesses fail. *)

From Stdlib Require Import ZArith List String Ascii Bool Lia.
From Stdlib Require Import DecimalString DecimalZ.
From Stdlib Require Import Sorting.Sorted Sorting.Permutation.
Import ListNotations.

Open Scope string_scope.
Open Scope Z_scope.

(** ** Python strings *)

Module PyStr.

Definition space : ascii := " "%char.
Definition newline : string := String (ascii_of_nat 10) "".

(** [sep.join(parts)] *)
Definition join (sep : string) (parts : list string) : string :=
  String.concat sep parts.

(** [s.split(c)] for a one-character separator: every occurrence cuts, so
    the result is never empty and has one more field than [s] has [c]'s. *)
Fixpoint split (c : ascii) (s : string) : list string :=
  match s with
  | EmptyString => [EmptyString]
  | String a s' =>
      if Ascii.eqb a c then EmptyString :: split c s'
      else match split c s' with
           | [] => [String a EmptyString]
           | w :: ws => String a w :: ws
           end
  end.

(** [sub in s] *)
Fixpoint contains (sub s : string) : bool :=
  String.prefix sub s
  || match s with
     | EmptyString => false
     | String _ s' => contains sub s'
     end.

Fixpoint has_char (c : ascii) (s : string) : bool :=
  match s with
  | EmptyString => false
  | String a s' => Ascii.eqb a c || has_char c s'
  end.

(** [str(n)] for an [int] *)
Definition of_int (n : Z) : string := NilZero.string_of_int (Z.to_int n).

(** [str(b)] for a [bool] *)
Definition of_bool (b : bool) : string := if b then "True" else "False".

(** [repr(s)] for a [str] without quotes, backslashes or control bytes *)
Definition repr (s : string) : string := "'" ++ s ++ "'".

(** The ASCII characters [int()] skips around a literal: tab, line feed,
    vertical tab, form feed, carriage return and space. *)
Definition is_space (c : ascii) : bool :=
  let n := nat_of_ascii c in
  ((9 <=? n) && (n <=? 13) || (n =? 32))%nat.

Definition is_digit (c : ascii) : bool :=
  let n := nat_of_ascii c in ((48 <=? n) && (n <=? 57))%nat.

Fixpoint lstrip (s : string) : string :=
  match s with
  | EmptyString => EmptyString
  | String c s' => if is_space c then lstrip s' else s
  end.

Fixpoint rstrip (s : string) : string :=
  match s with
  | EmptyString => EmptyString
  | String c s' =>
      match rstrip s' with
      | EmptyString => if is_space c then EmptyString else String c EmptyString
      | r => String c r
      end
  end.

Definition strip (s : string) : string := rstrip (lstrip s).

(** Digit groups of an integer literal: an underscore may stand only
    between two digits.  [prev] tells whether the previous character was a
    digit.  The result is the literal without its underscores. *)
Fixpoint ungroup (prev : bool) (s : string) : option string :=
  match s with
  | EmptyString => if prev then Some EmptyString else None
  | String c s' =>
      if Ascii.eqb c "_"%char then
        if prev then
          match s' with
          | EmptyString => None
          | _ => ungroup false s'
          end
        else None
      else if is_digit c then option_map (String c) (ungroup true s')
      else None
  end.

Definition digits (s : string) : option Z :=
  match s with
  | EmptyString => None
  | String c _ =>
      if is_digit c then
        match ungroup false s with
        | Some ds => option_map Z.of_uint (NilZero.uint_of_string ds)
        | None => None
        end
      else None
  end.

(** The literal once it is ASCII: blanks around it, one optional sign, the
    digit groups. *)
Definition ascii_to_int (s : string) : option Z :=
  match strip s with
  | String "+" r => digits r
  | String "-" r => option_map Z.opp (digits r)
  | t => digits t
  end.

Definition only_ascii (s : string) : bool :=
  forallb (fun c => (nat_of_ascii c <? 128)%nat) (list_ascii_of_string s).

Definition continuation (c : ascii) : bool :=
  let n := N_of_ascii c in ((128 <=? n) && (n <? 192))%N.

Definition low6 (c : ascii) : N := (N_of_ascii c - 128)%N.

(** The code points of a text from its UTF-8 bytes; [None] when the bytes
    are not UTF-8. *)
Fixpoint code_points (s : string) : option (list N) :=
  match s with
  | EmptyString => Some []
  | String a s1 =>
      let n := N_of_ascii a in
      if (n <? 128)%N then option_map (cons n) (code_points s1)
      else if (n <? 192)%N then None
      else if (n <? 224)%N then
        match s1 with
        | String b s2 =>
            if continuation b
            then option_map (cons ((n - 192) * 64 + low6 b)%N) (code_points s2)
            else None
        | _ => None
        end
      else if (n <? 240)%N then
        match s1 with
        | String b (String c s3) =>
            if continuation b && continuation c
            then option_map
                   (cons ((n - 224) * 4096 + low6 b * 64 + low6 c)%N)
                   (code_points s3)
            else None
        | _ => None
        end
      else if (n <? 248)%N then
        match s1 with
        | String b (String c (String d s4)) =>
            if continuation b && continuation c && continuation d
            then option_map
                   (cons ((n - 240) * 262144 + low6 b * 4096 + low6 c * 64
                          + low6 d)%N)
                   (code_points s4)
            else None
        | _ => None
        end
      else None
  end.

(** The white space of Unicode above ASCII. *)
Definition unicode_spaces : list N :=
  [133; 160; 5760; 8192; 8193; 8194; 8195; 8196; 8197; 8198; 8199; 8200;
   8201; 8202; 8232; 8233; 8239; 8287; 12288]%N.

(** The decimal digits of Unicode 14.0 come in runs of ten, zero to nine;
    these are the code points of the zeros. *)
Definition decimal_zeros : list N :=
  [48; 1632; 1776; 1984; 2406; 2534; 2662; 2790; 2918; 3046; 3174; 3302;
   3430; 3558; 3664; 3792; 3872; 4160; 4240; 6112; 6160; 6470; 6608; 6784;
   6800; 6992; 7088; 7232; 7248; 42528; 43216; 43264; 43472; 43504; 43600;
   44016; 65296; 66720; 68912; 69734; 69872; 69942; 70096; 70384; 70736;
   70864; 71248; 71360; 71472; 71904; 72016; 72784; 73040; 73120; 92768;
   92864; 93008; 120782; 120792; 120802; 120812; 120822; 123200; 123632;
   125264; 130032]%N.

Definition decimal_value (cp : N) : option N :=
  option_map (fun zero => (cp - zero)%N)
             (find (fun zero => (zero <=? cp) && (cp <? zero + 10))%N
                   decimal_zeros).

(** What [int()] does to a text that is not ASCII before it reads it:
    characters below 127 stay, white space becomes a space, a decimal digit
    becomes its ASCII digit, and any other character spoils the literal. *)
Fixpoint to_ascii (cps : list N) : option string :=
  match cps with
  | [] => Some EmptyString
  | cp :: rest =>
      if (cp <? 127)%N then option_map (String (ascii_of_N cp)) (to_ascii rest)
      else if existsb (N.eqb cp) unicode_spaces
      then option_map (String space) (to_ascii rest)
      else match decimal_value cp with
           | Some d => option_map (String (ascii_of_N (48 + d))) (to_ascii rest)
           | None => None
           end
  end.

Definition transform (s : string) : option string :=
  if only_ascii s then Some s
  else match code_points s with
       | Some cps => to_ascii cps
       | None => None
       end.

(** [int(s)] in base 10; [None] stands for the [ValueError] of a text that
    is not an integer literal.  The interpreter's cap on the number of
    digits of a literal (4300 unless configured otherwise, none in older
    interpreters) is a setting of the process, not of the text: it is not
    part of this function, and the statements that it could affect bound
    the literal by [within_digit_cap]. *)
Definition to_int (s : string) : option Z :=
  match transform s with
  | Some t => ascii_to_int t
  | None => None
  end.

(** An integer whose decimal text has at most 4300 digits. *)
Definition within_digit_cap (n : Z) : Prop := Z.abs n < 10 ^ 4300.

End PyStr.

(** ** The schema *)

Inductive SenderType := USER | GPT.
Inductive SendType := TEXT | IMAGE | AUDIO.

(** [member.name] of the two enumerations *)
Definition SenderType_name (x : SenderType) : string :=
  match x with USER => "USER" | GPT => "GPT" end.

Definition SendType_name (x : SendType) : string :=
  match x with TEXT => "TEXT" | IMAGE => "IMAGE" | AUDIO => "AUDIO" end.

(** A naive [datetime.datetime]. *)
Record datetime := mk_datetime {
  year : Z; month : Z; day : Z;
  hour : Z; minute : Z; second : Z; microsecond : Z
}.

Fixpoint zeros (n : nat) : string :=
  match n with O => "" | S n' => String "0" (zeros n') end.

Definition zfill (width : nat) (s : string) : string :=
  zeros (width - String.length s) ++ s.

(** [str(d)], that is [d.isoformat(sep=' ')] *)
Definition datetime_str (d : datetime) : string :=
  zfill 4 (PyStr.of_int (year d)) ++ "-" ++ zfill 2 (PyStr.of_int (month d))
  ++ "-" ++ zfill 2 (PyStr.of_int (day d)) ++ " "
  ++ zfill 2 (PyStr.of_int (hour d)) ++ ":" ++ zfill 2 (PyStr.of_int (minute d))
  ++ ":" ++ zfill 2 (PyStr.of_int (second d))
  ++ (if microsecond d =? 0 then ""
      else "." ++ zfill 6 (PyStr.of_int (microsecond d))).

Module Mask.
Record t := mk {
  mask_id : Z;                 (* primary key, autoincrement *)
  mask_name : string;          (* unique *)
  mask_describe : string
}.
End Mask.

Module Dialogue.
Record t := mk {
  dialogue_name : string;      (* primary key *)
  mask_id : option Z           (* foreign key, nullable *)
}.
End Dialogue.

Module Message.
Record t := mk {
  id : Z;                      (* primary key, autoincrement *)
  sender : SenderType;
  send_time : datetime;
  send_type : SendType;
  send_info : string;
  send_succeed : bool;
  dialogue_name : option string  (* foreign key, nullable *)
}.
End Message.

(** The database file [chat.db]: each table in rowid order. *)
Record Store := mk_Store {
  masks : list Mask.t;
  dialogues : list Dialogue.t;
  messages : list Message.t
}.

Definition empty_Store : Store := mk_Store [] [] [].

(** ** The world a method runs in *)

Inductive exn :=
| OperationalError (msg : string)   (* the storage engine failed *)
| IntegrityError (msg : string)     (* a constraint rejected a row *)
| ValueError (msg : string)
| AttributeError (msg : string)
| IndexError (msg : string)
| TypeError (msg : string)
| OverflowError (msg : string).

(** [str(e)].  For an error of the engine this is its first line; the echo
    of the SQL statement that follows it in the real text is left out. *)
Definition exn_str (e : exn) : string :=
  match e with
  | OperationalError m | IntegrityError m | ValueError m
  | AttributeError m | IndexError m | TypeError m | OverflowError m => m
  end.

Record World := mk_World {
  db : Store;
  logged : list string;             (* lines given to app_logger.info *)
  printed : list string;            (* lines given to print *)
  clock : datetime;                 (* what datetime.now() reads *)
  faults : list (option string)     (* fate of the coming storage accesses *)
}.

Definition set_db (s : Store) (w : World) : World :=
  mk_World s (logged w) (printed w) (clock w) (faults w).

Definition set_faults (f : list (option string)) (w : World) : World :=
  mk_World (db w) (logged w) (printed w) (clock w) f.

Definition set_clock (t : datetime) (w : World) : World :=
  mk_World (db w) (logged w) (printed w) t (faults w).

Inductive outcome (A : Type) :=
| Ret (a : A)
| Raise (e : exn).
Arguments Ret {A} a.
Arguments Raise {A} e.

Definition M (A : Type) : Type := World -> outcome A * World.

Definition ret {A} (a : A) : M A := fun w => (Ret a, w).

Definition raise {A} (e : exn) : M A := fun w => (Raise e, w).

Definition bind {A B} (c : M A) (k : A -> M B) : M B :=
  fun w =>
    match c w with
    | (Ret a, w') => k a w'
    | (Raise e, w') => (Raise e, w')
    end.

(** [try: body / except Exception as e: handler(e)] *)
Definition try_except {A} (body : M A) (handler : exn -> M A) : M A :=
  fun w =>
    match body w with
    | (Ret a, w') => (Ret a, w')
    | (Raise e, w') => handler e w'
    end.

Declare Scope py_scope.
Delimit Scope py_scope with py.
Notation "x <- c ;; k" := (bind c (fun x => k))
  (at level 100, c at next level, right associativity) : py_scope.
Notation "c ;; k" := (bind c (fun _ => k))
  (at level 100, right associativity) : py_scope.
Open Scope py_scope.

(** The collaborators: the logger, [print] and the clock. *)
Definition app_logger_info (line : string) : M unit :=
  fun w => (Ret tt, mk_World (db w) (logged w ++ [line]) (printed w)
                             (clock w) (faults w)).

Definition print (line : string) : M unit :=
  fun w => (Ret tt, mk_World (db w) (logged w) (printed w ++ [line])
                             (clock w) (faults w)).

Definition datetime_now : M datetime := fun w => (Ret (clock w), w).

(** One access to the storage engine: the oracle says whether it fails. *)
Definition storage_access : M unit :=
  fun w =>
    match faults w with
    | [] => (Ret tt, w)
    | None :: rest => (Ret tt, set_faults rest w)
    | Some msg :: rest => (Raise (OperationalError msg), set_faults rest w)
    end.

(** ** Python truth values, indexing, slicing and sorting *)

(** [bool(x)] of a value that is either [None] or an ORM object: a mapped
    object defines neither [__bool__] nor [__len__], so it is true. *)
Definition truth {A} (x : option A) : bool :=
  match x with Some _ => true | None => false end.

(** [l[i]], a negative [i] counting from the end; [None] stands for the
    [IndexError]. *)
Definition index {A} (i : Z) (l : list A) : option A :=
  let n := Z.of_nat (List.length l) in
  if (0 <=? i) && (i <? n) then nth_error l (Z.to_nat i)
  else if (i <? 0) && (- n <=? i) then nth_error l (Z.to_nat (n + i))
  else None.

(** [l[:n]] *)
Definition slice_to {A} (n : Z) (l : list A) : list A :=
  if 0 <=? n then firstn (Z.to_nat n) l
  else firstn (Z.to_nat (Z.of_nat (List.length l) + n)) l.

(** [sorted(l, key=key, reverse=True)]: stable, largest key first. *)
Fixpoint insert_reverse {A} (key : A -> Z) (x : A) (l : list A) : list A :=
  match l with
  | [] => [x]
  | y :: l' => if key y <=? key x then x :: l
               else y :: insert_reverse key x l'
  end.

Definition sorted_reverse {A} (key : A -> Z) (l : list A) : list A :=
  fold_right (insert_reverse key) [] l.

(** ** Sessions and queries *)

(** What a session holds until [commit]. *)
Inductive pending :=
| InsertMask (mask_name mask_describe : string)
| InsertDialogue (dialogue_name : string) (mask_id : option Z)
| InsertMessage (dialogue_name : option string) (sender : SenderType)
                (send_time : datetime) (send_type : SendType)
                (send_info : string) (send_succeed : bool)
| UpdateSendInfo (id : Z) (send_info : string)
| DeleteMessage (id : Z)
| DeleteMask (mask_id : Z).

Definition Session : Type := list pending.

(** [session.add(obj)], [session.delete(obj)], and assigning to an attribute
    of a loaded object all queue one change. *)
Definition session_add (p : pending) (session : Session) : Session :=
  (session ++ [p])%list.

(** The key SQLite gives a new row of an INTEGER PRIMARY KEY table: one
    more than the largest key in use, 1 in an empty table. *)
Definition next_rowid (ids : list Z) : Z := 1 + fold_right Z.max 0 ids.

Definition set_send_info (info : string) (m : Message.t) : Message.t :=
  Message.mk (Message.id m) (Message.sender m) (Message.send_time m)
             (Message.send_type m) info (Message.send_succeed m)
             (Message.dialogue_name m).

(** One queued change against the tables.  SQLite checks the UNIQUE and
    PRIMARY KEY constraints; it does not check foreign keys unless asked
    to, and the engine is created with its defaults. *)
Definition apply (p : pending) (s : Store) : exn + Store :=
  match p with
  | InsertMask name describe =>
      if existsb (fun m => String.eqb (Mask.mask_name m) name) (masks s)
      then inl (IntegrityError
                  "(sqlite3.IntegrityError) UNIQUE constraint failed: mask.mask_name")
      else inr (mk_Store
                  (masks s ++ [Mask.mk (next_rowid (map Mask.mask_id (masks s)))
                                       name describe])
                  (dialogues s) (messages s))
  | InsertDialogue name mid =>
      if existsb (fun d => String.eqb (Dialogue.dialogue_name d) name)
                 (dialogues s)
      then inl (IntegrityError
                  "(sqlite3.IntegrityError) UNIQUE constraint failed: dialogue.dialogue_name")
      else inr (mk_Store (masks s) (dialogues s ++ [Dialogue.mk name mid])
                         (messages s))
  | InsertMessage dname sender send_time send_type send_info send_succeed =>
      inr (mk_Store (masks s) (dialogues s)
             (messages s ++
                [Message.mk (next_rowid (map Message.id (messages s)))
                            sender send_time send_type send_info send_succeed
                            dname]))
  | UpdateSendInfo i info =>
      inr (mk_Store (masks s) (dialogues s)
             (map (fun m => if Message.id m =? i then set_send_info info m
                            else m) (messages s)))
  | DeleteMessage i =>
      inr (mk_Store (masks s) (dialogues s)
             (filter (fun m => negb (Message.id m =? i)) (messages s)))
  | DeleteMask i =>
      inr (mk_Store (filter (fun m => negb (Mask.mask_id m =? i)) (masks s))
                    (dialogues s) (messages s))
  end.

Fixpoint apply_all (session : Session) (s : Store) : exn + Store :=
  match session with
  | [] => inr s
  | p :: rest =>
      match apply p s with
      | inl e => inl e
      | inr s' => apply_all rest s'
      end
  end.

(** [session.flush()]: the queued changes go to the engine inside the open
    transaction; a rejected row raises.  Nothing is visible in the file
    before [commit]. *)
Definition flush (session : Session) : M unit :=
  storage_access ;;
  fun w =>
    match apply_all session (db w) with
    | inl e => (Raise e, w)
    | inr _ => (Ret tt, w)
    end.

(** [session.commit()]: all queued changes or none. *)
Definition commit (session : Session) : M unit :=
  storage_access ;;
  fun w =>
    match apply_all session (db w) with
    | inl e => (Raise e, w)
    | inr s' => (Ret tt, set_db s' w)
    end.

(** [session.query(Entity)] with its [filter_by] criteria: a description of
    a SELECT, which touches the storage only when [first], [all] or [get]
    runs it. *)
Record Query (R : Type) := mk_Query {
  q_table : Store -> list R;
  q_where : R -> bool
}.
Arguments mk_Query {R}.
Arguments q_table {R}.
Arguments q_where {R}.

Definition query_Mask (_ : Session) : Query Mask.t :=
  mk_Query masks (fun _ => true).
Definition query_Dialogue (_ : Session) : Query Dialogue.t :=
  mk_Query dialogues (fun _ => true).
Definition query_Message (_ : Session) : Query Message.t :=
  mk_Query messages (fun _ => true).

Definition filter_by {R} (p : R -> bool) (q : Query R) : Query R :=
  mk_Query (q_table q) (fun r => q_where q r && p r).

Definition rows {R} (q : Query R) (s : Store) : list R :=
  filter (q_where q) (q_table q s).

Definition first {R} (q : Query R) : M (option R) :=
  storage_access ;; fun w => (Ret (hd_error (rows q (db w))), w).

Definition all {R} (q : Query R) : M (list R) :=
  storage_access ;; fun w => (Ret (rows q (db w)), w).

(** An integer that fits an INTEGER of SQLite: 64 bits, signed. *)
Definition sqlite_integer (n : Z) : bool :=
  (- 2 ^ 63 <=? n) && (n <? 2 ^ 63).

(** Binding an integer parameter of a statement: the driver refuses one
    that does not fit. *)
Definition bind_integer (n : Z) : M unit :=
  if sqlite_integer n then ret tt
  else raise (OverflowError
                "Python int too large to convert to SQLite INTEGER").

(** [session.query(Message).get(message_id)]: a new session holds no
    object yet, so the row is selected by its key, which is bound as a
    parameter once the connection is there. *)
Definition get (message_id : Z) (q : Query Message.t) : M (option Message.t) :=
  storage_access ;;
  bind_integer message_id ;;
  fun w =>
    (Ret (hd_error (rows (filter_by (fun m => Message.id m =? message_id) q)
                         (db w))), w).

(** [bool(q)] of a [Query] object itself.  The class defines neither
    [__bool__] nor [__len__]: the object is true whatever it would select,
    and no SELECT runs. *)
Definition Query_truth {R} (_ : Query R) : bool := true.

Definition mask_name_is (name : string) (m : Mask.t) : bool :=
  String.eqb (Mask.mask_name m) name.

Definition dialogue_name_is (name : string) (d : Dialogue.t) : bool :=
  String.eqb (Dialogue.dialogue_name d) name.

Definition in_dialogue (name : string) (m : Message.t) : bool :=
  match Message.dialogue_name m with
  | Some n => String.eqb n name
  | None => false
  end.

(** [dialogue.messages]: the relationship is loaded on first access, by a
    SELECT on the foreign key. *)
Definition Dialogue_messages (_ : Session) (d : Dialogue.t)
  : M (list Message.t) :=
  all (mk_Query messages (in_dialogue (Dialogue.dialogue_name d))).

(** ** The repository class *)

Inductive sessionmaker := sessionmaker_bind (engine_url : string).

(** What executing the [class ChatSql:] statement leaves behind.  The
    default of [send_time] in [def add_message(..., send_time=datetime.now())]
    is an expression of the [def] statement: it is evaluated when the
    function is defined and kept with the function. *)
Record ChatSql_class := mk_ChatSql_class {
  add_message_send_time_default : datetime
}.

Definition class_ChatSql : M ChatSql_class :=
  now <- datetime_now ;;
  ret (mk_ChatSql_class now).

(** An instance: [self.DB_session] is bound only if [__init__] got that far. *)
Record ChatSql := mk_ChatSql {
  klass : ChatSql_class;
  DB_session : option sessionmaker
}.

(** [with self.DB_session() as session:].  Making a session opens no
    connection; reading an attribute that was never bound raises. *)
Definition open_session (self : ChatSql) : M Session :=
  match DB_session self with
  | Some _ => ret []
  | None =>
      raise (AttributeError "'ChatSql' object has no attribute 'DB_session'")
  end.

(** [except Exception as e: app_logger.info(str(e))] *)
Definition log_exception (e : exn) : M unit := app_logger_info (exn_str e).

(** *** add_mask *)

Definition add_mask_body (self : ChatSql) (mask_name mask_describe : string)
  : M unit :=
  session <- open_session self ;;
  let session := session_add (InsertMask mask_name mask_describe) session in
  commit session.

Definition add_mask (self : ChatSql) (mask_name mask_describe : string)
  : M unit :=
  try_except (add_mask_body self mask_name mask_describe) log_exception.

(** *** __init__ *)

(** [Base.metadata.create_all(engine)]: looks the tables up and creates
    the missing ones; a file without tables is [empty_Store] here. *)
Definition create_all : M unit := storage_access.

Definition __init___body (cls : ChatSql_class) : M ChatSql :=
  create_all ;;
  let self := mk_ChatSql cls (Some (sessionmaker_bind "sqlite:///chat.db")) in
  add_mask self "default" "" ;;
  ret self.

Definition __init__ (cls : ChatSql_class) : M ChatSql :=
  try_except (__init___body cls)
             (fun e => log_exception e ;; ret (mk_ChatSql cls None)).

(** *** create_dialogue *)

Definition create_dialogue_body (self : ChatSql) (name mask_name : string)
  : M unit :=
  session <- open_session self ;;
  mask <- first (filter_by (mask_name_is mask_name) (query_Mask session)) ;;
  mask <- (if String.eqb mask_name "" || negb (truth mask)
           then first (filter_by (mask_name_is "default") (query_Mask session))
           else ret mask) ;;
  if Query_truth (filter_by (dialogue_name_is name) (query_Dialogue session))
  then ret tt
  else
    mask_id <- match mask with
               | Some m => ret (Mask.mask_id m)
               | None => raise (AttributeError
                           "'NoneType' object has no attribute 'mask_id'")
               end ;;
    let session := session_add (InsertDialogue name (Some mask_id)) session in
    flush session ;;
    commit session.

Definition create_dialogue (self : ChatSql) (name mask_name : string)
  : M unit :=
  try_except (create_dialogue_body self name mask_name)
             (fun e => log_exception e ;; print (exn_str e)).

(** *** add_message *)

Definition add_message_body (self : ChatSql) (dialogue_name : string)
    (sender : SenderType) (send_type : SendType) (send_info : string)
    (send_succeed : bool) (send_time : datetime) : M unit :=
  session <- open_session self ;;
  dialogue <- first (filter_by (dialogue_name_is dialogue_name)
                               (query_Dialogue session)) ;;
  (if negb (truth dialogue)
   then print ("Dialogue with name " ++ dialogue_name ++ " not found")
   else ret tt) ;;
  let session :=
    session_add (InsertMessage (option_map Dialogue.dialogue_name dialogue)
                               sender send_time send_type send_info
                               send_succeed) session in
  commit session.

(** The caller passes [send_time] or omits it ([None]); an omitted argument
    takes the default stored with the function. *)
Definition add_message (self : ChatSql) (dialogue_name : string)
    (sender : SenderType) (send_type : SendType) (send_info : string)
    (send_succeed : bool) (send_time : option datetime) : M unit :=
  let send_time :=
    match send_time with
    | Some t => t
    | None => add_message_send_time_default (klass self)
    end in
  try_except (add_message_body self dialogue_name sender send_type send_info
                               send_succeed send_time)
             log_exception.

(** *** update_message, delete_message *)

Definition update_message_body (self : ChatSql) (message_id : Z)
    (new_send_info : string) : M unit :=
  session <- open_session self ;;
  message <- get message_id (query_Message session) ;;
  if truth message
  then
    let session := session_add (UpdateSendInfo message_id new_send_info)
                               session in
    commit session
  else print ("Message with id " ++ PyStr.of_int message_id ++ " not found").

Definition update_message (self : ChatSql) (message_id : Z)
    (new_send_info : string) : M unit :=
  try_except (update_message_body self message_id new_send_info) log_exception.

Definition delete_message_body (self : ChatSql) (message_id : Z) : M unit :=
  session <- open_session self ;;
  message <- get message_id (query_Message session) ;;
  if truth message
  then
    let session := session_add (DeleteMessage message_id) session in
    commit session
  else print ("Message with id " ++ PyStr.of_int message_id ++ " not found").

Definition delete_message (self : ChatSql) (message_id : Z) : M unit :=
  try_except (delete_message_body self message_id) log_exception.

(** *** get_dialogue, get_messages, get_mask

    A method that falls off its [except] clause returns [None]. *)

Definition get_dialogue_body (self : ChatSql) (dialogue_name : string)
  : M (option Dialogue.t) :=
  session <- open_session self ;;
  first (filter_by (dialogue_name_is dialogue_name) (query_Dialogue session)).

Definition get_dialogue (self : ChatSql) (dialogue_name : string)
  : M (option Dialogue.t) :=
  try_except (get_dialogue_body self dialogue_name)
             (fun e => log_exception e ;; ret None).

Definition get_messages_body (self : ChatSql) (dialogue_name : string)
  : M (option (list Message.t)) :=
  session <- open_session self ;;
  dialogue <- first (filter_by (dialogue_name_is dialogue_name)
                               (query_Dialogue session)) ;;
  match dialogue with
  | Some d => l <- Dialogue_messages session d ;; ret (Some l)
  | None => ret (Some [])
  end.

Definition get_messages (self : ChatSql) (dialogue_name : string)
  : M (option (list Message.t)) :=
  try_except (get_messages_body self dialogue_name)
             (fun e => log_exception e ;; ret None).

Definition get_mask_body (self : ChatSql) (mask_name : string)
  : M (option Mask.t) :=
  session <- open_session self ;;
  first (filter_by (mask_name_is mask_name) (query_Mask session)).

Definition get_mask (self : ChatSql) (mask_name : string) : M (option Mask.t) :=
  try_except (get_mask_body self mask_name)
             (fun e => log_exception e ;; ret None).

(** *** delete_mask *)

Definition delete_mask_body (self : ChatSql) (mask_name : string) : M unit :=
  session <- open_session self ;;
  mask <- get_mask self mask_name ;;
  match mask with
  | Some m =>
      let session := session_add (DeleteMask (Mask.mask_id m)) session in
      commit session
  | None => print ("Mask with name " ++ mask_name ++ " not found")
  end.

Definition delete_mask (self : ChatSql) (mask_name : string) : M unit :=
  try_except (delete_mask_body self mask_name) log_exception.

(** *** __format__ *)

Definition option_int_str (x : option Z) : string :=
  match x with Some n => PyStr.of_int n | None => "None" end.

Definition dialogue_line (d : Dialogue.t) : string :=
  "对话名: " ++ Dialogue.dialogue_name d
  ++ ", 面具id: " ++ option_int_str (Dialogue.mask_id d).

Definition mask_line (m : Mask.t) : string :=
  "面具id: " ++ PyStr.of_int (Mask.mask_id m)
  ++ ", 面具名: " ++ Mask.mask_name m
  ++ ", 面具描述: " ++ Mask.mask_describe m.

Definition message_line (m : Message.t) : string :=
  "信息id: " ++ PyStr.of_int (Message.id m)
  ++ ", 发送者: " ++ SenderType_name (Message.sender m)
  ++ ", 发送时间: " ++ datetime_str (Message.send_time m)
  ++ ", 发送类型: " ++ SendType_name (Message.send_type m)
  ++ ", 发送内容: " ++ Message.send_info m
  ++ ", 发送是否成功: " ++ PyStr.of_bool (Message.send_succeed m).

(** [int(token)] *)
Definition int (token : string) : M Z :=
  match PyStr.to_int token with
  | Some n => ret n
  | None => raise (ValueError ("invalid literal for int() with base 10: "
                               ++ PyStr.repr token))
  end.

(** [l[i]] *)
Definition item {A} (i : Z) (l : list A) : M A :=
  match index i l with
  | Some x => ret x
  | None => raise (IndexError "list index out of range")
  end.

Definition __format___body (self : ChatSql) (format_spec : string)
  : M (option string) :=
  session <- open_session self ;;
  if String.eqb format_spec "dialogues" then
    dialogues <- all (query_Dialogue session) ;;
    ret (Some (PyStr.join PyStr.newline (map dialogue_line dialogues)))
  else if String.eqb format_spec "masks" then
    masks <- all (query_Mask session) ;;
    ret (Some (PyStr.join PyStr.newline (map mask_line masks)))
  else if PyStr.contains "messages" format_spec then
    let target_format := PyStr.split PyStr.space format_spec in
    if Z.of_nat (List.length target_format) <? 2 then
      ret (Some "Miss parameters")
    else
      update_num <- (if 2 <=? Z.of_nat (List.length target_format)
                     then (token <- item (-1) target_format ;; int token)
                     else ret 5) ;;
      dialogue_name <- item 1 target_format ;;
      dialogue <- first (filter_by (dialogue_name_is dialogue_name)
                                   (query_Dialogue session)) ;;
      match dialogue with
      | Some d =>
          messages <- Dialogue_messages session d ;;
          let sorted_messages := sorted_reverse Message.id messages in
          let print_messages := slice_to update_num sorted_messages in
          ret (Some (PyStr.join PyStr.newline
                                (map message_line print_messages)))
      | None => ret (Some ("未找到 " ++ dialogue_name ++ " 这个对话"))
      end
  else
    app_logger_info "Unknown format specifier" ;;
    ret None.

Definition __format__ (self : ChatSql) (format_spec : string)
  : M (option string) :=
  try_except (__format___body self format_spec)
             (fun e => log_exception e ;; ret (Some (exn_str e))).

(** The built-in [format(obj, format_spec)], which is how [__format__] is
    reached: it insists on a [str]. *)
Definition format (self : ChatSql) (format_spec : string) : M string :=
  r <- __format__ self format_spec ;;
  match r with
  | Some s => ret s
  | None => raise (TypeError "__format__ must return a str, not NoneType")
  end.

(** ** The operations as data *)

Inductive operation :=
| Op_init
| Op_add_mask (mask_name mask_describe : string)
| Op_get_mask (mask_name : string)
| Op_delete_mask (mask_name : string)
| Op_create_dialogue (name mask_name : string)
| Op_get_dialogue (dialogue_name : string)
| Op_add_message (dialogue_name : string) (sender : SenderType)
                 (send_type : SendType) (send_info : string)
                 (send_succeed : bool) (send_time : option datetime)
| Op_update_message (message_id : Z) (new_send_info : string)
| Op_delete_message (message_id : Z)
| Op_get_messages (dialogue_name : string)
| Op_format (format_spec : string).

(** What a method hands back to its caller. *)
Inductive value :=
| VNone
| VObject (self : ChatSql)
| VMask (m : Mask.t)
| VDialogue (d : Dialogue.t)
| VMessages (l : list Message.t)
| VStr (s : string).

Definition fmap {A B} (f : A -> B) (c : M A) : M B := x <- c ;; ret (f x).

Definition of_option {A} (f : A -> value) (x : option A) : value :=
  match x with Some a => f a | None => VNone end.

(** The statements inside the method's [try:]. *)
Definition body_of (self : ChatSql) (op : operation) : M value :=
  match op with
  | Op_init => fmap VObject (__init___body (klass self))
  | Op_add_mask n d => fmap (fun _ => VNone) (add_mask_body self n d)
  | Op_get_mask n => fmap (of_option VMask) (get_mask_body self n)
  | Op_delete_mask n => fmap (fun _ => VNone) (delete_mask_body self n)
  | Op_create_dialogue n m =>
      fmap (fun _ => VNone) (create_dialogue_body self n m)
  | Op_get_dialogue n => fmap (of_option VDialogue) (get_dialogue_body self n)
  | Op_add_message n sd ty info ok t =>
      fmap (fun _ => VNone)
           (add_message_body self n sd ty info ok
              (match t with
               | Some t => t
               | None => add_message_send_time_default (klass self)
               end))
  | Op_update_message i s => fmap (fun _ => VNone) (update_message_body self i s)
  | Op_delete_message i => fmap (fun _ => VNone) (delete_message_body self i)
  | Op_get_messages n => fmap (of_option VMessages) (get_messages_body self n)
  | Op_format spec => fmap (of_option VStr) (__format___body self spec)
  end.

(** The method itself. *)
Definition call (self : ChatSql) (op : operation) : M value :=
  match op with
  | Op_init => fmap VObject (__init__ (klass self))
  | Op_add_mask n d => fmap (fun _ => VNone) (add_mask self n d)
  | Op_get_mask n => fmap (of_option VMask) (get_mask self n)
  | Op_delete_mask n => fmap (fun _ => VNone) (delete_mask self n)
  | Op_create_dialogue n m => fmap (fun _ => VNone) (create_dialogue self n m)
  | Op_get_dialogue n => fmap (of_option VDialogue) (get_dialogue self n)
  | Op_add_message n sd ty info ok t =>
      fmap (fun _ => VNone) (add_message self n sd ty info ok t)
  | Op_update_message i s => fmap (fun _ => VNone) (update_message self i s)
  | Op_delete_message i => fmap (fun _ => VNone) (delete_message self i)
  | Op_get_messages n => fmap (of_option VMessages) (get_messages self n)
  | Op_format spec => fmap (of_option VStr) (__format__ self spec)
  end.

(** A caller working through a list of calls on one object; a call of the
    constructor replaces the object. *)
Definition step (sw : ChatSql * World) (op : operation) : ChatSql * World :=
  match call (fst sw) op (snd sw) with
  | (Ret (VObject self'), w') => (self', w')
  | (_, w') => (fst sw, w')
  end.

Definition run (ops : list operation) (sw : ChatSql * World)
  : ChatSql * World :=
  fold_left step ops sw.

(** ** Invariants of the store *)

(** Rowids grow along each table, and the two name columns hold no
    duplicates. *)
Definition increasing (ids : list Z) : Prop := StronglySorted Z.lt ids.

Record store_ok (s : Store) : Prop := mk_store_ok {
  ok_mask_ids : increasing (map Mask.mask_id (masks s));
  ok_mask_names : NoDup (map Mask.mask_name (masks s));
  ok_dialogue_names : NoDup (map Dialogue.dialogue_name (dialogues s));
  ok_message_ids : increasing (map Message.id (messages s))
}.

Definition initialised (self : ChatSql) : Prop := DB_session self <> None.

(** The oracle announces no failure: the storage works from here on. *)
Definition fault_free (w : World) : Prop := faults w = [].

(** ** Vocabulary of the statements *)

(** A computation that never writes to the file. *)
Definition readonly {A} (c : M A) : Prop :=
  forall w, db (snd (c w)) = db w.

(** A computation that, when it raises, has written nothing. *)
Definition atomic {A} (c : M A) : Prop :=
  forall w e w', c w = (Raise e, w') -> db w' = db w.

(** [s'] comes from [s] by changes the engine accepted. *)
Definition evolves (s s' : Store) : Prop :=
  exists changes, apply_all changes s = inr s'.

Definition steady {A} (c : M A) : Prop :=
  forall w, evolves (db w) (db (snd (c w))).

(** A computation that always returns. *)
Definition total {A} (c : M A) : Prop :=
  forall w, exists a w', c w = (Ret a, w').

(** What the [except] clause of each method hands back. *)
Definition failure_result (self : ChatSql) (op : operation) (e : exn)
  : value :=
  match op with
  | Op_init => VObject (mk_ChatSql (klass self) None)
  | Op_format _ => VStr (exn_str e)
  | _ => VNone
  end.

Definition count_masks (name : string) (s : Store) : nat :=
  List.length (filter (mask_name_is name) (masks s)).

Definition count_dialogues (name : string) (s : Store) : nat :=
  List.length (filter (dialogue_name_is name) (dialogues s)).

Definition has_dialogue (name : string) (s : Store) : bool :=
  existsb (dialogue_name_is name) (dialogues s).

Definition has_message (i : Z) (s : Store) : bool :=
  existsb (fun m => Message.id m =? i) (messages s).

(** A string of decimal digits. *)
Fixpoint digits_only (s : string) : bool :=
  match s with
  | EmptyString => true
  | String c s' => PyStr.is_digit c && digits_only s'
  end.

Definition not_older {A} (key : A -> Z) (a b : A) : Prop := key b <= key a.

(** The row [.first()] finds for a dialogue name. *)
Definition found_dialogue (name : string) (s : Store) : option Dialogue.t :=
  hd_error (rows (filter_by (dialogue_name_is name) (query_Dialogue [])) s).

(** The row [.get(i)] finds for a message id. *)
Definition found_message (i : Z) (s : Store) : option Message.t :=
  hd_error (rows (filter_by (fun m => Message.id m =? i) (query_Message [])) s).

(** The messages of a dialogue, in table order. *)
Definition messages_of (name : string) (s : Store) : list Message.t :=
  filter (in_dialogue name) (messages s).

(** The text of the request ["messages <name> <count>"]. *)
Definition messages_request (name : string) (count : nat) : string :=
  "messages " ++ name ++ " " ++ PyStr.of_int (Z.of_nat count).

Definition newer (a b : Message.t) : Prop := Message.id b < Message.id a.

(** Two messages that differ at most in [send_info]. *)
Definition same_but_info (m m' : Message.t) : Prop :=
  Message.id m' = Message.id m /\
  Message.sender m' = Message.sender m /\
  Message.send_time m' = Message.send_time m /\
  Message.send_type m' = Message.send_type m /\
  Message.send_succeed m' = Message.send_succeed m /\
  Message.dialogue_name m' = Message.dialogue_name m.

(** ** Sample worlds *)

Definition noon : datetime := mk_datetime 2024 6 29 12 0 0 0.
Definition later : datetime := mk_datetime 2024 6 29 12 0 5 1500.
Definition evening : datetime := mk_datetime 2024 6 29 19 30 0 0.

Definition sample_class : ChatSql_class := mk_ChatSql_class noon.

Definition sample_self : ChatSql :=
  mk_ChatSql sample_class (Some (sessionmaker_bind "sqlite:///chat.db")).

Definition fresh_world : World := mk_World empty_Store [] [] noon [].

(** The world after the constructor ran on a new file. *)
Definition started_world : World := snd (__init__ sample_class fresh_world).

Definition text_message (name : option string) (i : nat) : Message.t :=
  Message.mk (Z.of_nat i) USER noon TEXT (PyStr.of_int (Z.of_nat i - 1)) true
             name.

(** A file holding dialogue [name] with [n] messages, ids 1 to [n]. *)
Definition dialogue_world (name : string) (n : nat) : World :=
  mk_World
    (mk_Store [Mask.mk 1 "default" ""] [Dialogue.mk name (Some 1)]
              (map (text_message (Some name)) (seq 1 n)))
    [] [] later [].

(** ** Vocabulary of the further statements *)

(** The row [.first()] finds for a mask name. *)
Definition found_mask (name : string) (s : Store) : option Mask.t :=
  hd_error (rows (filter_by (mask_name_is name) (query_Mask [])) s).

Definition has_mask (name : string) (s : Store) : bool :=
  existsb (mask_name_is name) (masks s).

(** The text of a ["messages"] request whose count is any integer. *)
Definition messages_request_int (name : string) (count : Z) : string :=
  "messages " ++ name ++ " " ++ PyStr.of_int count.

(** The answer of the formatter for a list of messages. *)
Definition shown_lines (l : list Message.t) : string :=
  PyStr.join PyStr.newline (map message_line l).

(** The answer of the formatter when the dialogue is not there. *)
Definition not_found_line (name : string) : string :=
  "未找到 " ++ name ++ " 这个对话".

(** What reading [self.DB_session] raises when it was never bound. *)
Definition no_session_text : string :=
  "'ChatSql' object has no attribute 'DB_session'".

(** The lines a method prints in its [except] clause: only
    [create_dialogue] has a [print] there. *)
Definition printed_on_failure (op : operation) (text : string) : list string :=
  match op with
  | Op_create_dialogue _ _ => [text]
  | _ => []
  end.

(** A computation that leaves the dialogue table as it was. *)
Definition keeps_dialogues {A} (c : M A) : Prop :=
  forall w, dialogues (db (snd (c w))) = dialogues (db w).

Definition writes_dialogue (p : pending) : bool :=
  match p with InsertDialogue _ _ => true | _ => false end.

(** A file with two masks, a dialogue bound to the second, and three
    messages of which the last belongs to no dialogue. *)
Definition two_masks_world : World :=
  mk_World
    (mk_Store [Mask.mk 1 "default" ""; Mask.mk 2 "Mask1" "test mask"]
              [Dialogue.mk "D1" (Some 2)]
              [Message.mk 1 USER noon TEXT "hello" true (Some "D1");
               Message.mk 2 GPT later TEXT "hi" true (Some "D1");
               Message.mk 3 USER later IMAGE "cat.png" false None])
    [] [] evening [].

(** * Proofs *)

(** ** The monad *)

Section MonadFacts.
Context {A B : Type}.

Lemma bind_ret_inv (c : M A) (k : A -> M B) w b w' :
  bind c k w = (Ret b, w') ->
  exists a w1, c w = (Ret a, w1) /\ k a w1 = (Ret b, w').
Proof.
  unfold bind. destruct (c w) as [[a|e] w1]; intro H.
  - exists a, w1. split; [reflexivity | exact H].
  - discriminate H.
Qed.

Lemma bind_raise_inv (c : M A) (k : A -> M B) w e w' :
  bind c k w = (Raise e, w') ->
  c w = (Raise e, w') \/
  exists a w1, c w = (Ret a, w1) /\ k a w1 = (Raise e, w').
Proof.
  unfold bind. destruct (c w) as [[a|e0] w1]; intro H.
  - right. exists a, w1. split; [reflexivity | exact H].
  - left. injection H as -> ->. reflexivity.
Qed.

Lemma readonly_bind (c : M A) (k : A -> M B) :
  readonly c -> (forall a, readonly (k a)) -> readonly (bind c k).
Proof.
  intros Hc Hk w. unfold bind. specialize (Hc w).
  destruct (c w) as [[a|e] w1]; simpl in *.
  - rewrite Hk. exact Hc.
  - exact Hc.
Qed.

Lemma atomic_bind (c : M A) (k : A -> M B) :
  readonly c -> (forall a, atomic (k a)) -> atomic (bind c k).
Proof.
  intros Hc Hk w e w' H. specialize (Hc w).
  apply bind_raise_inv in H. destruct H as [H | (a & w1 & H1 & H2)].
  - rewrite H in Hc. exact Hc.
  - rewrite H1 in Hc. simpl in Hc. rewrite <- Hc. exact (Hk a w1 e w' H2).
Qed.

Lemma total_bind (c : M A) (k : A -> M B) :
  total c -> (forall a, total (k a)) -> total (bind c k).
Proof.
  intros Hc Hk w. destruct (Hc w) as (a & w1 & H1).
  destruct (Hk a w1) as (b & w2 & H2).
  exists b, w2. unfold bind. rewrite H1. exact H2.
Qed.

End MonadFacts.

Lemma evolves_refl s : evolves s s.
Proof. exists []. reflexivity. Qed.

Lemma apply_all_app ps qs s s1 :
  apply_all ps s = inr s1 -> apply_all (ps ++ qs)%list s = apply_all qs s1.
Proof.
  revert s. induction ps as [|p ps IH]; intros s H; simpl in *.
  - inversion H. reflexivity.
  - destruct (apply p s) as [e|s2]; [discriminate | apply IH, H].
Qed.

Lemma evolves_trans s1 s2 s3 : evolves s1 s2 -> evolves s2 s3 -> evolves s1 s3.
Proof.
  intros [ps Hp] [qs Hq]. exists (ps ++ qs)%list.
  rewrite (apply_all_app _ _ _ _ Hp). exact Hq.
Qed.

Lemma readonly_steady {A} (c : M A) : readonly c -> steady c.
Proof. intros H w. rewrite H. apply evolves_refl. Qed.

Lemma readonly_atomic {A} (c : M A) : readonly c -> atomic c.
Proof. intros H w e w' E. specialize (H w). rewrite E in H. exact H. Qed.

Lemma steady_bind {A B} (c : M A) (k : A -> M B) :
  steady c -> (forall a, steady (k a)) -> steady (bind c k).
Proof.
  intros Hc Hk w. unfold bind. specialize (Hc w).
  destruct (c w) as [[a|e] w1]; simpl in *.
  - eapply evolves_trans; [exact Hc | apply Hk].
  - exact Hc.
Qed.

Lemma steady_try {A} (body : M A) (handler : exn -> M A) :
  steady body -> (forall e, steady (handler e)) ->
  steady (try_except body handler).
Proof.
  intros Hb Hh w. unfold try_except. specialize (Hb w).
  destruct (body w) as [[a|e] w1]; simpl in *.
  - exact Hb.
  - eapply evolves_trans; [exact Hb | apply Hh].
Qed.

Lemma readonly_try {A} (body : M A) (handler : exn -> M A) :
  readonly body -> (forall e, readonly (handler e)) ->
  readonly (try_except body handler).
Proof.
  intros Hb Hh w. unfold try_except. specialize (Hb w).
  destruct (body w) as [[a|e] w1]; simpl in *.
  - exact Hb.
  - rewrite Hh. exact Hb.
Qed.

Lemma total_try {A} (body : M A) (handler : exn -> M A) :
  (forall e, total (handler e)) -> total (try_except body handler).
Proof.
  intros Hh w. unfold try_except.
  destruct (body w) as [[a|e] w1].
  - exists a, w1. reflexivity.
  - apply Hh.
Qed.

(** ** The primitives *)

Lemma readonly_ret {A} (a : A) : readonly (ret a).
Proof. intro w. reflexivity. Qed.

Lemma readonly_raise {A} (e : exn) : readonly (@raise A e).
Proof. intro w. reflexivity. Qed.

Lemma readonly_log line : readonly (app_logger_info line).
Proof. intro w. reflexivity. Qed.

Lemma readonly_print line : readonly (print line).
Proof. intro w. reflexivity. Qed.

Lemma readonly_storage_access : readonly storage_access.
Proof.
  intro w. unfold storage_access.
  destruct (faults w) as [|[msg|] rest]; reflexivity.
Qed.

Lemma readonly_open_session self : readonly (open_session self).
Proof. intro w. unfold open_session. destruct (DB_session self); reflexivity. Qed.

Lemma readonly_first {R} (q : Query R) : readonly (first q).
Proof.
  apply readonly_bind; [apply readonly_storage_access | intros _ w; reflexivity].
Qed.

Lemma readonly_all {R} (q : Query R) : readonly (all q).
Proof.
  apply readonly_bind; [apply readonly_storage_access | intros _ w; reflexivity].
Qed.

Lemma readonly_log_exception e : readonly (log_exception e).
Proof. apply readonly_log. Qed.

Lemma readonly_flush session : readonly (flush session).
Proof.
  apply readonly_bind; [apply readonly_storage_access |].
  intros _ w. destruct (apply_all session (db w)); reflexivity.
Qed.

Lemma atomic_commit session : atomic (commit session).
Proof.
  apply atomic_bind; [apply readonly_storage_access |].
  intros _ w e w' H.
  destruct (apply_all session (db w)); inversion H. reflexivity.
Qed.

Lemma steady_commit session : steady (commit session).
Proof.
  apply steady_bind; [apply readonly_steady, readonly_storage_access |].
  intros _ w. destruct (apply_all session (db w)) as [e|s'] eqn:E; simpl.
  - apply evolves_refl.
  - exists session. exact E.
Qed.

Lemma total_ret {A} (a : A) : total (ret a).
Proof. intro w. exists a, w. reflexivity. Qed.

Lemma total_log_exception e : total (log_exception e).
Proof. intro w. eexists. eexists. reflexivity. Qed.

Lemma total_print line : total (print line).
Proof. intro w. eexists. eexists. reflexivity. Qed.

Lemma readonly_Dialogue_messages session d :
  readonly (Dialogue_messages session d).
Proof. apply readonly_all. Qed.

Lemma readonly_int token : readonly (int token).
Proof.
  unfold int. destruct (PyStr.to_int token);
    [apply readonly_ret | apply readonly_raise].
Qed.

Lemma readonly_item {A} i (l : list A) : readonly (item i l).
Proof.
  unfold item. destruct (index i l); [apply readonly_ret | apply readonly_raise].
Qed.

Lemma readonly_bind_integer n : readonly (bind_integer n).
Proof.
  unfold bind_integer. destruct (sqlite_integer n);
    [apply readonly_ret | apply readonly_raise].
Qed.

Lemma readonly_get i q : readonly (get i q).
Proof.
  unfold get. apply readonly_bind; [apply readonly_storage_access | intros _].
  apply readonly_bind; [apply readonly_bind_integer | intros _ w; reflexivity].
Qed.

Create HintDb chat.

#[local] Hint Resolve readonly_ret readonly_raise readonly_log readonly_print
  readonly_storage_access readonly_open_session readonly_first readonly_all
  readonly_log_exception readonly_flush readonly_steady readonly_atomic
  readonly_Dialogue_messages readonly_int readonly_item readonly_get
  atomic_commit steady_commit total_ret total_log_exception total_print
  : chat.

(** Peels one statement off a method body. *)
Ltac peel :=
  repeat first
    [ solve [auto with chat]
    | apply readonly_bind; [auto with chat | intro; cbv beta]
    | apply readonly_try; [| intro; cbv beta] ].

(** ** The methods: what they may write *)

Lemma readonly_get_mask self name : readonly (get_mask self name).
Proof. unfold get_mask, get_mask_body. peel. Qed.

Lemma readonly_get_dialogue self name : readonly (get_dialogue self name).
Proof. unfold get_dialogue, get_dialogue_body. peel. Qed.

Lemma readonly_get_messages self name : readonly (get_messages self name).
Proof.
  unfold get_messages, get_messages_body. peel.
  destruct a0; peel.
Qed.

Lemma readonly_create_dialogue_body self name mask_name :
  readonly (create_dialogue_body self name mask_name).
Proof.
  unfold create_dialogue_body.
  apply readonly_bind; [auto with chat | intro session].
  apply readonly_bind; [auto with chat | intro mask].
  apply readonly_bind.
  - destruct (String.eqb mask_name "" || negb (truth mask)); auto with chat.
  - intro mask'. unfold Query_truth. apply readonly_ret.
Qed.

Lemma readonly_create_dialogue self name mask_name :
  readonly (create_dialogue self name mask_name).
Proof.
  unfold create_dialogue. apply readonly_try.
  - apply readonly_create_dialogue_body.
  - intro e. peel.
Qed.

Lemma readonly_format_body self spec : readonly (__format___body self spec).
Proof.
  unfold __format___body.
  apply readonly_bind; [auto with chat | intro session; cbv beta].
  destruct (String.eqb spec "dialogues"); [peel |].
  destruct (String.eqb spec "masks"); [peel |].
  destruct (PyStr.contains "messages" spec); [| peel].
  destruct (Z.of_nat (List.length (PyStr.split PyStr.space spec)) <? 2);
    [peel |].
  apply readonly_bind.
  - destruct (2 <=? Z.of_nat (List.length (PyStr.split PyStr.space spec)));
      peel.
  - intro n. apply readonly_bind; [auto with chat | intro dn; cbv beta].
    apply readonly_bind; [auto with chat | intro d; cbv beta].
    destruct d; peel.
Qed.

Lemma readonly_format self spec : readonly (__format__ self spec).
Proof.
  unfold __format__. apply readonly_try; [apply readonly_format_body |].
  intro e. peel.
Qed.

#[local] Hint Resolve readonly_get_mask readonly_get_dialogue
  readonly_get_messages readonly_create_dialogue readonly_format
  readonly_create_dialogue_body readonly_format_body : chat.

Lemma readonly_when (b : bool) (c : M unit) :
  readonly c -> readonly (if b then c else ret tt).
Proof. destruct b; auto with chat. Qed.

#[local] Hint Resolve readonly_when : chat.

Lemma atomic_add_mask_body self n d : atomic (add_mask_body self n d).
Proof.
  unfold add_mask_body.
  apply atomic_bind; [auto with chat | intro session; cbv beta].
  apply atomic_commit.
Qed.

Lemma atomic_add_message_body self n sd ty info ok t :
  atomic (add_message_body self n sd ty info ok t).
Proof.
  unfold add_message_body.
  apply atomic_bind; [auto with chat | intro session; cbv beta].
  apply atomic_bind; [auto with chat | intro dialogue; cbv beta].
  apply atomic_bind; [auto with chat | intros _].
  apply atomic_commit.
Qed.

Lemma atomic_update_message_body self i s :
  atomic (update_message_body self i s).
Proof.
  unfold update_message_body.
  apply atomic_bind; [auto with chat | intro session; cbv beta].
  apply atomic_bind; [auto with chat | intro message; cbv beta].
  destruct (truth message); auto with chat.
Qed.

Lemma atomic_delete_message_body self i : atomic (delete_message_body self i).
Proof.
  unfold delete_message_body.
  apply atomic_bind; [auto with chat | intro session; cbv beta].
  apply atomic_bind; [auto with chat | intro message; cbv beta].
  destruct (truth message); auto with chat.
Qed.

Lemma atomic_delete_mask_body self n : atomic (delete_mask_body self n).
Proof.
  unfold delete_mask_body.
  apply atomic_bind; [auto with chat | intro session; cbv beta].
  apply atomic_bind; [auto with chat | intro mask; cbv beta].
  destruct mask; auto with chat.
Qed.

Lemma total_add_mask self n d : total (add_mask self n d).
Proof. apply total_try, total_log_exception. Qed.

Lemma atomic_init_body cls : atomic (__init___body cls).
Proof.
  unfold __init___body, create_all. intros w e w' H.
  apply bind_raise_inv in H. destruct H as [H | (a & w1 & H1 & H2)].
  - pose proof (readonly_storage_access w) as R. rewrite H in R. exact R.
  - apply bind_raise_inv in H2. destruct H2 as [H2 | (b & w2 & H2 & H3)].
    + destruct (total_add_mask
                  (mk_ChatSql cls (Some (sessionmaker_bind "sqlite:///chat.db")))
                  "default" "" w1) as (x & w2 & E).
      rewrite E in H2. discriminate H2.
    + discriminate H3.
Qed.

Lemma steady_add_mask self n d : steady (add_mask self n d).
Proof.
  unfold add_mask, add_mask_body.
  apply steady_try; [| auto with chat].
  apply steady_bind; [auto with chat | intro session; cbv beta].
  apply steady_commit.
Qed.

Lemma steady_init cls : steady (__init__ cls).
Proof.
  unfold __init__, __init___body, create_all.
  apply steady_try.
  - apply steady_bind; [auto with chat | intros _].
    apply steady_bind; [apply steady_add_mask | intros _].
    auto with chat.
  - intro e. apply readonly_steady.
    apply readonly_bind; [auto with chat | intros _; auto with chat].
Qed.

Lemma steady_add_message self n sd ty info ok t :
  steady (add_message self n sd ty info ok t).
Proof.
  unfold add_message, add_message_body.
  apply steady_try; [| auto with chat].
  apply steady_bind; [auto with chat | intro session; cbv beta].
  apply steady_bind; [auto with chat | intro dialogue; cbv beta].
  apply steady_bind; [auto with chat | intros _].
  apply steady_commit.
Qed.

Lemma steady_update_message self i s : steady (update_message self i s).
Proof.
  unfold update_message, update_message_body.
  apply steady_try; [| auto with chat].
  apply steady_bind; [auto with chat | intro session; cbv beta].
  apply steady_bind; [auto with chat | intro message; cbv beta].
  destruct (truth message); auto with chat.
Qed.

Lemma steady_delete_message self i : steady (delete_message self i).
Proof.
  unfold delete_message, delete_message_body.
  apply steady_try; [| auto with chat].
  apply steady_bind; [auto with chat | intro session; cbv beta].
  apply steady_bind; [auto with chat | intro message; cbv beta].
  destruct (truth message); auto with chat.
Qed.

Lemma steady_delete_mask self n : steady (delete_mask self n).
Proof.
  unfold delete_mask, delete_mask_body.
  apply steady_try; [| auto with chat].
  apply steady_bind; [auto with chat | intro session; cbv beta].
  apply steady_bind; [auto with chat | intro mask; cbv beta].
  destruct mask; auto with chat.
Qed.

Lemma steady_fmap {A B} (f : A -> B) (c : M A) : steady c -> steady (fmap f c).
Proof.
  intro H. unfold fmap. apply steady_bind; [exact H |].
  intro a. apply readonly_steady, readonly_ret.
Qed.

Lemma steady_call self op : steady (call self op).
Proof.
  destruct op; simpl; apply steady_fmap;
    auto using steady_init, steady_add_mask, steady_delete_mask,
      steady_add_message, steady_update_message, steady_delete_message
      with chat.
Qed.

(** ** The store invariant *)

Section ListFacts.
Context {A : Type}.

Lemma sorted_snoc (R : A -> A -> Prop) (l : list A) (x : A) :
  StronglySorted R l -> Forall (fun y => R y x) l ->
  StronglySorted R (l ++ [x])%list.
Proof.
  induction 1 as [|a l Hl IH Ha]; intro F; simpl.
  - constructor; constructor.
  - inversion F; subst. constructor.
    + apply IH. assumption.
    + apply Forall_app. split; [assumption | constructor; [assumption | constructor]].
Qed.

Section Column.
(** A column [col] of a table and a row filter [keep]. *)
Context {B : Type} (col : A -> B) (keep : A -> bool).

Lemma column_filter_incl (table : list A) (b : B) :
  In b (map col (filter keep table)) -> In b (map col table).
Proof.
  rewrite !in_map_iff. intros (row & E & Hrow).
  apply filter_In in Hrow. exists row. tauto.
Qed.

Lemma sorted_map_filter (R : B -> B -> Prop) (table : list A) :
  StronglySorted R (map col table) ->
  StronglySorted R (map col (filter keep table)).
Proof.
  induction table as [|row table IH]; simpl; intro H; [constructor |].
  inversion H as [|? ? Hs Hf]; subst.
  destruct (keep row); simpl; [| auto].
  constructor; [auto |].
  rewrite Forall_forall in *. intros b Hb.
  apply Hf, column_filter_incl, Hb.
Qed.

Lemma NoDup_map_filter (table : list A) :
  NoDup (map col table) -> NoDup (map col (filter keep table)).
Proof.
  induction table as [|row table IH]; simpl; intro H; [constructor |].
  inversion H as [|? ? Hn Hd]; subst.
  destruct (keep row); simpl; [| auto].
  constructor; [| auto].
  intro Hin. apply Hn, column_filter_incl, Hin.
Qed.

End Column.

Lemma NoDup_snoc (l : list A) (x : A) :
  NoDup l -> ~ In x l -> NoDup (l ++ [x])%list.
Proof.
  intros Hl Hx. apply NoDup_app; [assumption | repeat constructor; intros [] | ].
  intros y Hy [<- | []]. contradiction.
Qed.

Lemma filter_unique_le {B} (f : A -> B) (p : A -> bool) (l : list A) :
  NoDup (map f l) ->
  (forall a b, p a = true -> p b = true -> f a = f b) ->
  (List.length (filter p l) <= 1)%nat.
Proof.
  intros N Hp. induction l as [|a l IH]; simpl; [lia |].
  inversion N as [|? ? Ha N']; subst. specialize (IH N').
  destruct (p a) eqn:Pa; [| lia]. simpl.
  destruct (filter p l) as [|b r] eqn:F; [simpl; lia |].
  exfalso. apply Ha.
  assert (Hb : In b (filter p l)) by (rewrite F; left; reflexivity).
  apply filter_In in Hb. destruct Hb as [Hb Pb].
  rewrite (Hp a b Pa Pb). apply in_map. exact Hb.
Qed.

End ListFacts.

Lemma increasing_NoDup (l : list Z) : increasing l -> NoDup l.
Proof.
  induction 1 as [|a l Hl IH Ha]; constructor; [| assumption].
  intro Hin. rewrite Forall_forall in Ha. specialize (Ha a Hin). lia.
Qed.

Lemma fold_max_ge (ids : list Z) :
  0 <= fold_right Z.max 0 ids /\
  Forall (fun i => i <= fold_right Z.max 0 ids) ids.
Proof.
  induction ids as [|i ids [IH0 IH]]; cbn [fold_right].
  - split; [lia | constructor].
  - split; [lia |]. constructor; [lia |].
    eapply Forall_impl; [| exact IH]. cbv beta. intros; lia.
Qed.

Lemma next_rowid_above (ids : list Z) :
  Forall (fun i => i < next_rowid ids) ids.
Proof.
  unfold next_rowid. destruct (fold_max_ge ids) as [_ H].
  eapply Forall_impl; [| exact H]. cbv beta. intros; lia.
Qed.

Lemma existsb_name_false {A} (f : A -> string) (name : string) (l : list A) :
  existsb (fun a => String.eqb (f a) name) l = false -> ~ In name (map f l).
Proof.
  intros H Hin. apply in_map_iff in Hin. destruct Hin as (a & E & Ha).
  assert (T : existsb (fun a => String.eqb (f a) name) l = true).
  { apply existsb_exists. exists a. split; [exact Ha |].
    rewrite E. apply String.eqb_refl. }
  congruence.
Qed.

Lemma map_id_update i info (l : list Message.t) :
  map Message.id
      (map (fun m => if Message.id m =? i then set_send_info info m else m) l)
  = map Message.id l.
Proof.
  rewrite map_map. apply map_ext. intro m.
  destruct (Message.id m =? i); reflexivity.
Qed.

Lemma store_ok_apply p s s' : store_ok s -> apply p s = inr s' -> store_ok s'.
Proof.
  intros [H1 H2 H3 H4] E. destruct p; simpl in E.
  - destruct (existsb _ (masks s)) eqn:X; [discriminate |].
    injection E as <-. constructor; simpl; try assumption.
    + rewrite map_app. apply sorted_snoc; [assumption |].
      apply next_rowid_above.
    + rewrite map_app. apply NoDup_snoc; [assumption |].
      apply existsb_name_false. exact X.
  - destruct (existsb _ (dialogues s)) eqn:X; [discriminate |].
    injection E as <-. constructor; simpl; try assumption.
    rewrite map_app. apply NoDup_snoc; [assumption |].
    apply existsb_name_false. exact X.
  - injection E as <-. constructor; simpl; try assumption.
    rewrite map_app. apply sorted_snoc; [assumption |].
    apply next_rowid_above.
  - injection E as <-. constructor; simpl; try assumption.
    rewrite map_id_update. assumption.
  - injection E as <-. constructor; simpl; try assumption.
    apply sorted_map_filter. assumption.
  - injection E as <-. constructor; simpl; try assumption.
    + apply sorted_map_filter. assumption.
    + apply NoDup_map_filter. assumption.
Qed.

Lemma store_ok_evolves s s' : store_ok s -> evolves s s' -> store_ok s'.
Proof.
  intros H [ps E]. revert s H E.
  induction ps as [|p ps IH]; simpl; intros s H E.
  - injection E as <-. exact H.
  - destruct (apply p s) as [e|s1] eqn:P; [discriminate |].
    apply (IH s1); [eapply store_ok_apply; eassumption | exact E].
Qed.

Lemma store_ok_empty : store_ok empty_Store.
Proof. constructor; simpl; constructor. Qed.

Lemma store_ok_call self op w :
  store_ok (db w) -> store_ok (db (snd (call self op w))).
Proof. intro H. eapply store_ok_evolves; [exact H | apply steady_call]. Qed.

Lemma store_ok_run ops : forall sw,
  store_ok (db (snd sw)) -> store_ok (db (snd (run ops sw))).
Proof.
  unfold run. induction ops as [|op ops IH]; simpl; intros sw H; [exact H |].
  apply IH. unfold step.
  pose proof (store_ok_call (fst sw) op (snd sw) H) as K.
  destruct (call (fst sw) op (snd sw)) as [[v|e] w']; simpl in *;
    [destruct v |]; exact K.
Qed.

Lemma count_masks_le_1 name s : store_ok s -> (count_masks name s <= 1)%nat.
Proof.
  intros [_ H _ _]. unfold count_masks.
  apply (filter_unique_le Mask.mask_name); [exact H |].
  unfold mask_name_is. intros a b Ha Hb.
  apply String.eqb_eq in Ha, Hb. congruence.
Qed.

(** ** Running the methods when the storage works *)

Lemma hd_filter_none {A} (p : A -> bool) (l : list A) :
  hd_error (filter p l) = None <-> existsb p l = false.
Proof.
  induction l as [|a l IH]; simpl; [tauto |].
  destruct (p a); simpl; [split; discriminate | exact IH].
Qed.

Lemma hd_filter_some {A} (p : A -> bool) (l : list A) (a : A) :
  hd_error (filter p l) = Some a -> In a l /\ p a = true.
Proof.
  intro H. apply filter_In. destruct (filter p l); [discriminate |].
  injection H as ->. left. reflexivity.
Qed.

Lemma found_dialogue_none name s :
  found_dialogue name s = None <-> has_dialogue name s = false.
Proof. apply hd_filter_none. Qed.

Lemma found_dialogue_some name s d :
  found_dialogue name s = Some d ->
  In d (dialogues s) /\ Dialogue.dialogue_name d = name.
Proof.
  intro H. apply hd_filter_some in H. destruct H as [H1 H2].
  split; [exact H1 | apply String.eqb_eq; exact H2].
Qed.

Lemma found_message_none i s :
  found_message i s = None <-> has_message i s = false.
Proof. apply hd_filter_none. Qed.

Lemma add_message_body_run sm cls s lg pr ck D sd ty info ok t :
  add_message_body (mk_ChatSql cls (Some sm)) D sd ty info ok t
                   (mk_World s lg pr ck []) =
  (Ret tt,
   mk_World
     (mk_Store (masks s) (dialogues s)
        (messages s ++
           [Message.mk (next_rowid (map Message.id (messages s))) sd t ty info
                       ok (option_map Dialogue.dialogue_name
                                      (found_dialogue D s))]))
     lg
     (if truth (found_dialogue D s) then pr
      else pr ++ ["Dialogue with name " ++ D ++ " not found"])
     ck []).
Proof.
  unfold found_dialogue.
  destruct (hd_error (rows (filter_by (dialogue_name_is D) (query_Dialogue []))
                           s)) eqn:E;
    unfold add_message_body, bind, open_session, first, bind, storage_access;
    simpl; rewrite E; reflexivity.
Qed.

(** C1, as the code has it.  The guard of [create_dialogue] tests the
    [Query] object, which is always true, so the method returns before its
    insert: it never changes the file, and on a newly initialised file
    [create_dialogue("D", "")] returns normally and leaves no dialogue
    named ["D"], where the specification promises exactly one. *)
Theorem create_dialogue_inserts_nothing :
  (forall self name mask_name w,
      db (snd (create_dialogue self name mask_name w)) = db w) /\
  create_dialogue sample_self "D" "" started_world = (Ret tt, started_world) /\
  count_dialogues "D" (db started_world) = 0%nat.
Proof.
  split; [| split].
  - intros. apply readonly_create_dialogue.
  - reflexivity.
  - reflexivity.
Qed.

(** C2, as the code has it.  A call of [add_message] that omits [send_time]
    stores the time at which the function was defined, whatever the clock
    reads when the call is made. *)
Theorem add_message_default_time_is_definition_time :
  forall self w D sd ty info ok,
    initialised self -> fault_free w ->
    exists m,
      messages (db (snd (add_message self D sd ty info ok None w)))
      = (messages (db w) ++ [m])%list /\
      Message.send_time m = add_message_send_time_default (klass self).
Proof.
  intros [cls [sm|]] [s lg pr ck fl] D sd ty info ok Hi Hf;
    [| exfalso; apply Hi; reflexivity].
  unfold fault_free in Hf. simpl in Hf. subst fl.
  unfold add_message, try_except. cbn [klass].
  rewrite add_message_body_run. simpl.
  eexists. split; reflexivity.
Qed.

Lemma add_message_default_time_witness :
  clock (set_clock evening started_world) = evening /\
  exists m,
    messages (db (snd (add_message sample_self "D" USER TEXT "hi" true None
                                   (set_clock evening started_world))))
    = (messages (db (set_clock evening started_world)) ++ [m])%list /\
    Message.send_time m = add_message_send_time_default (klass sample_self).
Proof.
  split; [reflexivity |].
  apply (add_message_default_time_is_definition_time
           sample_self (set_clock evening started_world)
           "D" USER TEXT "hi" true).
  - discriminate.
  - reflexivity.
Defined.

(** C7.  When no dialogue has the given name, [add_message] prints that the
    dialogue was not found, raises nothing, and the engine accepts the row:
    the message is appended with the fields given and no dialogue name. *)
Theorem add_message_without_dialogue :
  forall self w D sd ty info ok t,
    initialised self -> fault_free w -> has_dialogue D (db w) = false ->
    add_message self D sd ty info ok (Some t) w =
    (Ret tt,
     mk_World
       (mk_Store (masks (db w)) (dialogues (db w))
          (messages (db w) ++
             [Message.mk (next_rowid (map Message.id (messages (db w))))
                         sd t ty info ok None]))
       (logged w)
       (printed w ++ ["Dialogue with name " ++ D ++ " not found"])
       (clock w) (faults w)).
Proof.
  intros [cls [sm|]] [s lg pr ck fl] D sd ty info ok t Hi Hf Hd;
    [| exfalso; apply Hi; reflexivity].
  unfold fault_free in Hf. simpl in Hf, Hd. subst fl.
  apply found_dialogue_none in Hd.
  unfold add_message, try_except.
  rewrite add_message_body_run, Hd. reflexivity.
Qed.

Lemma add_message_without_dialogue_witness :
  add_message sample_self "D" GPT IMAGE "cat.png" false (Some later)
              started_world =
  (Ret tt,
   mk_World
     (mk_Store [Mask.mk 1 "default" ""] []
               [Message.mk 1 GPT later IMAGE "cat.png" false None])
     [] ["Dialogue with name D not found"] noon []).
Proof.
  apply (add_message_without_dialogue sample_self started_world
           "D" GPT IMAGE "cat.png" false later).
  - discriminate.
  - reflexivity.
  - reflexivity.
Defined.

Lemma in_dialogue_iff name m :
  in_dialogue name m = true <-> Message.dialogue_name m = Some name.
Proof.
  unfold in_dialogue. destruct (Message.dialogue_name m) as [n|].
  - rewrite String.eqb_eq. split; intro H; [subst | injection H]; auto.
  - split; discriminate.
Qed.

Lemma has_dialogue_found name s :
  has_dialogue name s = true -> exists d, found_dialogue name s = Some d.
Proof.
  intro H. destruct (found_dialogue name s) as [d|] eqn:E; [eauto |].
  apply found_dialogue_none in E. congruence.
Qed.

Lemma get_messages_body_run sm cls s lg pr ck D :
  get_messages_body (mk_ChatSql cls (Some sm)) D (mk_World s lg pr ck []) =
  (Ret (Some (if has_dialogue D s then messages_of D s else [])),
   mk_World s lg pr ck []).
Proof.
  destruct (has_dialogue D s) eqn:H.
  - destruct (has_dialogue_found _ _ H) as [d E].
    destruct (found_dialogue_some _ _ _ E) as [_ N].
    unfold found_dialogue in E.
    unfold get_messages_body, bind, open_session, first, bind, storage_access.
    simpl. rewrite E. unfold Dialogue_messages, all, bind, storage_access.
    simpl. rewrite N. reflexivity.
  - apply found_dialogue_none in H. unfold found_dialogue in H.
    unfold get_messages_body, bind, open_session, first, bind, storage_access.
    simpl. rewrite H. reflexivity.
Qed.

Lemma messages_of_snoc name s m :
  messages_of name (mk_Store (masks s) (dialogues s) (messages s ++ [m])) =
  (messages_of name s ++ (if in_dialogue name m then [m] else []))%list.
Proof. unfold messages_of. simpl. rewrite filter_app. reflexivity. Qed.

(** C5.  [get_messages] returns the rows of the message table that carry
    the dialogue's name, in the order of the table, which is the order of
    their ids and of their insertion: a message added to the dialogue comes
    back last.  Without a dialogue of that name the result is the empty
    list. *)
Theorem get_messages_in_insertion_order :
  forall self w D,
    initialised self -> fault_free w -> store_ok (db w) ->
    get_messages self D w =
      (Ret (Some (if has_dialogue D (db w) then messages_of D (db w) else [])),
       w) /\
    (forall m, In m (messages_of D (db w)) <->
               In m (messages (db w)) /\ Message.dialogue_name m = Some D) /\
    increasing (map Message.id (messages_of D (db w))) /\
    (forall sd ty info ok t,
        has_dialogue D (db w) = true ->
        exists m,
          fst (get_messages self D
                 (snd (add_message self D sd ty info ok (Some t) w))) =
            Ret (Some (messages_of D (db w) ++ [m])%list) /\
          Forall (fun m' => Message.id m' < Message.id m)
                 (messages_of D (db w)) /\
          Message.send_info m = info).
Proof.
  intros [cls [sm|]] [s lg pr ck fl] D Hi Hf Hok;
    [| exfalso; apply Hi; reflexivity].
  unfold fault_free in Hf. simpl in Hf, Hok |- *. subst fl.
  split; [| split; [| split]].
  - unfold get_messages, try_except. rewrite get_messages_body_run.
    reflexivity.
  - intro m. unfold messages_of. rewrite filter_In, in_dialogue_iff. tauto.
  - unfold messages_of. apply sorted_map_filter. apply (ok_message_ids _ Hok).
  - intros sd ty info ok t H.
    unfold add_message, try_except. rewrite add_message_body_run.
    destruct (has_dialogue_found _ _ H) as [d E].
    destruct (found_dialogue_some _ _ _ E) as [_ N].
    rewrite E. cbn [option_map truth snd].
    unfold get_messages, try_except. rewrite get_messages_body_run.
    cbn [fst]. unfold has_dialogue in *. cbn [dialogues]. rewrite H.
    rewrite messages_of_snoc. rewrite N.
    eexists. split; [| split].
    + unfold in_dialogue. cbn [Message.dialogue_name].
      rewrite String.eqb_refl. reflexivity.
    + cbn [Message.id]. unfold messages_of.
      pose proof (next_rowid_above (map Message.id (messages s))) as F.
      rewrite Forall_forall in *. intros m' Hm'.
      apply filter_In in Hm'. destruct Hm' as [Hm' _].
      apply F. apply in_map. exact Hm'.
    + reflexivity.
Qed.

(** Settles [store_ok] and membership facts on a closed store. *)
Ltac closed_store :=
  constructor; simpl;
  repeat (constructor; simpl; try lia; try (intuition (discriminate || lia))).

Lemma get_messages_in_insertion_order_witness :
  get_messages sample_self "D" (dialogue_world "D" 3) =
  (Ret (Some [text_message (Some "D") 1; text_message (Some "D") 2;
              text_message (Some "D") 3]),
   dialogue_world "D" 3).
Proof.
  apply (proj1 (get_messages_in_insertion_order
                  sample_self (dialogue_world "D" 3) "D"
                  ltac:(discriminate) ltac:(reflexivity)
                  ltac:(closed_store))).
Defined.

Lemma get_run (q : Query Message.t) i s lg pr ck :
  sqlite_integer i = true ->
  get i q (mk_World s lg pr ck []) =
  (Ret (hd_error (rows (filter_by (fun m => Message.id m =? i) q) s)),
   mk_World s lg pr ck []).
Proof.
  intro R. unfold get, bind, storage_access, bind_integer. cbn [faults].
  rewrite R. reflexivity.
Qed.

Lemma get_overflow (q : Query Message.t) i s lg pr ck :
  sqlite_integer i = false ->
  get i q (mk_World s lg pr ck []) =
  (Raise (OverflowError "Python int too large to convert to SQLite INTEGER"),
   mk_World s lg pr ck []).
Proof.
  intro R. unfold get, bind, storage_access, bind_integer. cbn [faults].
  rewrite R. reflexivity.
Qed.

Lemma update_message_body_run sm cls s lg pr ck i info :
  sqlite_integer i = true ->
  update_message_body (mk_ChatSql cls (Some sm)) i info
                      (mk_World s lg pr ck []) =
  (Ret tt,
   if has_message i s
   then mk_World
          (mk_Store (masks s) (dialogues s)
             (map (fun m => if Message.id m =? i then set_send_info info m
                            else m) (messages s)))
          lg pr ck []
   else mk_World s lg
          (pr ++ ["Message with id " ++ PyStr.of_int i ++ " not found"])
          ck []).
Proof.
  intro R. unfold update_message_body, open_session. cbn [DB_session].
  unfold bind at 1. unfold ret at 1. unfold bind at 1.
  rewrite (get_run _ i s lg pr ck R).
  destruct (has_message i s) eqn:H.
  - destruct (found_message i s) as [m|] eqn:E;
      [| apply found_message_none in E; congruence].
    unfold found_message in E. rewrite E. reflexivity.
  - apply found_message_none in H. unfold found_message in H.
    rewrite H. reflexivity.
Qed.

Lemma Forall2_map_r {A B} (R : A -> B -> Prop) (f : A -> B) (l : list A) :
  (forall a, R a (f a)) -> Forall2 R l (map f l).
Proof. intro H. induction l; simpl; constructor; auto. Qed.

(** C6.  [update_message] with an id that fits the 64-bit INTEGER of the
    table returns normally.  When a message has the id, the mask and
    dialogue tables are as before and the message table holds the same rows
    in the same order, each with every field but [send_info] as before;
    [send_info] is the new text on the row with that id and the old one
    elsewhere.  When no message has the id, nothing is written and the miss
    is printed. *)
Theorem update_message_changes_only_send_info :
  forall self w i info,
    initialised self -> fault_free w -> sqlite_integer i = true ->
    let w' := snd (update_message self i info w) in
    fst (update_message self i info w) = Ret tt /\
    (has_message i (db w) = true ->
       masks (db w') = masks (db w) /\
       dialogues (db w') = dialogues (db w) /\
       Forall2 (fun m m' =>
                  same_but_info m m' /\
                  Message.send_info m' =
                    if Message.id m =? i then info else Message.send_info m)
               (messages (db w)) (messages (db w')) /\
       logged w' = logged w /\ printed w' = printed w) /\
    (has_message i (db w) = false ->
       w' = mk_World (db w) (logged w)
              (printed w ++
                 ["Message with id " ++ PyStr.of_int i ++ " not found"])
              (clock w) (faults w)).
Proof.
  intros [cls [sm|]] [s lg pr ck fl] i info Hi Hf R;
    [| exfalso; apply Hi; reflexivity].
  unfold fault_free in Hf. simpl in Hf. subst fl.
  unfold update_message, try_except.
  rewrite (update_message_body_run sm cls s lg pr ck i info R).
  cbn [fst snd db logged printed clock faults].
  split; [reflexivity | split]; intro H; rewrite H.
  - cbn [db masks dialogues messages logged printed].
    repeat split; try reflexivity.
    apply Forall2_map_r. intro m.
    destruct (Message.id m =? i); repeat split; reflexivity.
  - reflexivity.
Qed.

Lemma update_message_changes_only_send_info_witness :
  messages (db (snd (update_message sample_self 2 "x" (dialogue_world "D" 3))))
  = [text_message (Some "D") 1;
     Message.mk 2 USER noon TEXT "x" true (Some "D");
     text_message (Some "D") 3] /\
  fst (update_message sample_self 2 "x" (dialogue_world "D" 3)) = Ret tt /\
  snd (update_message sample_self 9 "x" (dialogue_world "D" 3)) =
  mk_World (db (dialogue_world "D" 3)) []
           ["Message with id 9 not found"] later [].
Proof.
  pose proof (update_message_changes_only_send_info
                sample_self (dialogue_world "D" 3) 2 "x"
                ltac:(discriminate) ltac:(reflexivity) ltac:(reflexivity))
    as H2.
  pose proof (update_message_changes_only_send_info
                sample_self (dialogue_world "D" 3) 9 "x"
                ltac:(discriminate) ltac:(reflexivity) ltac:(reflexivity))
    as H9.
  split; [reflexivity | split].
  - exact (proj1 H2).
  - exact (proj2 (proj2 H9) eq_refl).
Defined.

(** ** The formatter *)

Lemma split_without_separator c s :
  PyStr.has_char c s = false -> PyStr.split c s = [s].
Proof.
  induction s as [|a s IH]; simpl; intro H; [reflexivity |].
  apply orb_false_iff in H. destruct H as [Ha Hs].
  rewrite Ha, (IH Hs). reflexivity.
Qed.

Lemma split_at_separator c s t :
  PyStr.has_char c s = false ->
  PyStr.split c (s ++ String c t) = s :: PyStr.split c t.
Proof.
  induction s as [|a s IH]; simpl; intro H.
  - rewrite Ascii.eqb_refl. reflexivity.
  - apply orb_false_iff in H. destruct H as [Ha Hs].
    rewrite Ha, (IH Hs). reflexivity.
Qed.

(** A computation that never returns [None]. *)
Lemma some_ret {A} (a : A) w w' : ret (Some a) w <> (Ret None, w').
Proof. unfold ret. intro H. discriminate H. Qed.

Lemma some_bind {A B} (c : M A) (k : A -> M (option B)) :
  (forall a w w', k a w <> (Ret None, w')) ->
  forall w w', bind c k w <> (Ret None, w').
Proof.
  intros Hk w w' H. apply bind_ret_inv in H.
  destruct H as (a & w1 & _ & H). exact (Hk a w1 w' H).
Qed.

Lemma format_body_some self spec w w' :
  PyStr.contains "messages" spec = true ->
  __format___body self spec w <> (Ret None, w').
Proof.
  intro C. revert w w'. unfold __format___body.
  apply some_bind. intro session.
  destruct (String.eqb spec "dialogues");
    [apply some_bind; intro; apply some_ret |].
  destruct (String.eqb spec "masks");
    [apply some_bind; intro; apply some_ret |].
  rewrite C.
  destruct (Z.of_nat (List.length (PyStr.split PyStr.space spec)) <? 2);
    [apply some_ret |].
  apply some_bind. intro n. apply some_bind. intro name.
  apply some_bind. intros [d|]; [| apply some_ret].
  apply some_bind. intro. apply some_ret.
Qed.

Lemma contains_messages_not_keyword spec :
  PyStr.contains "messages" spec = true ->
  String.eqb spec "dialogues" = false /\ String.eqb spec "masks" = false.
Proof.
  intro C. split.
  - destruct (String.eqb spec "dialogues") eqn:E; [| reflexivity].
    apply String.eqb_eq in E. subst spec. discriminate C.
  - destruct (String.eqb spec "masks") eqn:E; [| reflexivity].
    apply String.eqb_eq in E. subst spec. discriminate C.
Qed.

(** C4 as stated does not hold: the request ["messages D"], which lacks its
    count, is answered with the text of the [ValueError] that [int("D")]
    raised, not with ["Miss parameters"]. *)
Lemma format_messages_missing_count_counterexample :
  fst (__format__ sample_self "messages D" started_world) =
    Ret (Some "invalid literal for int() with base 10: 'D'") /\
  fst (__format__ sample_self "messages D" started_world) <>
    Ret (Some "Miss parameters").
Proof. split; [reflexivity | discriminate]. Qed.

(** C4, amended.  A request that contains ["messages"] and no space, so
    that both the dialogue name and the count are missing, is answered with
    ["Miss parameters"] and touches nothing.  Whatever the object, the file
    and the storage do, a request that contains ["messages"] is answered
    with a string and nothing is raised. *)
Theorem format_messages_without_tokens :
  (forall self w spec,
      initialised self ->
      PyStr.contains "messages" spec = true ->
      PyStr.has_char PyStr.space spec = false ->
      __format__ self spec w = (Ret (Some "Miss parameters"), w)) /\
  (forall self w spec,
      PyStr.contains "messages" spec = true ->
      exists s w', __format__ self spec w = (Ret (Some s), w')).
Proof.
  split.
  - intros [cls [sm|]] w spec Hi C Hs; [| exfalso; apply Hi; reflexivity].
    destruct (contains_messages_not_keyword _ C) as [E1 E2].
    unfold __format__, try_except, __format___body, bind, open_session.
    cbn [DB_session ret]. rewrite E1, E2, C.
    rewrite (split_without_separator _ _ Hs). reflexivity.
  - intros self w spec C. unfold __format__, try_except.
    destruct (__format___body self spec w) as [[[s|]|e] w1] eqn:E.
    + exists s, w1. reflexivity.
    + exfalso. exact (format_body_some _ _ _ _ C E).
    + eexists. eexists. reflexivity.
Qed.

Lemma format_messages_without_tokens_witness :
  __format__ sample_self "messages" started_world =
    (Ret (Some "Miss parameters"), started_world) /\
  exists s w',
    __format__ (mk_ChatSql sample_class None) "messages D 1"
               (mk_World empty_Store [] [] noon [Some "disk I/O error"]) =
    (Ret (Some s), w').
Proof.
  split.
  - apply (proj1 format_messages_without_tokens sample_self started_world
             "messages");
      [discriminate | reflexivity | reflexivity].
  - apply (proj2 format_messages_without_tokens). reflexivity.
Defined.

(** C10.  On an initialised object, a format spec that is neither
    ["dialogues"] nor ["masks"] and does not contain ["messages"] makes
    [__format__] log one line and return [None]; the built-in [format],
    which requires a string, then raises a [TypeError]. *)
Theorem format_unknown_specifier_returns_none :
  forall self w spec,
    initialised self ->
    spec <> "dialogues" -> spec <> "masks" ->
    PyStr.contains "messages" spec = false ->
    __format__ self spec w =
      (Ret None,
       mk_World (db w) (logged w ++ ["Unknown format specifier"]) (printed w)
                (clock w) (faults w)) /\
    fst (format self spec w) =
      Raise (TypeError "__format__ must return a str, not NoneType").
Proof.
  intros [cls [sm|]] w spec Hi H1 H2 C; [| exfalso; apply Hi; reflexivity].
  apply String.eqb_neq in H1, H2.
  assert (E : __format__ (mk_ChatSql cls (Some sm)) spec w =
              (Ret None,
               mk_World (db w) (logged w ++ ["Unknown format specifier"])
                        (printed w) (clock w) (faults w))).
  { unfold __format__, try_except, __format___body, bind, open_session.
    cbn [DB_session ret]. rewrite H1, H2, C. reflexivity. }
  split; [exact E |].
  unfold format, bind. rewrite E. reflexivity.
Qed.

Lemma format_unknown_specifier_returns_none_witness :
  __format__ sample_self "message list" started_world =
    (Ret None,
     mk_World (db started_world) ["Unknown format specifier"] [] noon []) /\
  fst (format sample_self "message list" started_world) =
    Raise (TypeError "__format__ must return a str, not NoneType").
Proof.
  apply (format_unknown_specifier_returns_none sample_self started_world
           "message list");
    [discriminate | discriminate | discriminate | reflexivity].
Defined.

(** ** Decimal text of a count *)

Lemma digit_char c :
  PyStr.is_digit c = true ->
  PyStr.is_space c = false /\ Ascii.eqb c "_" = false /\
  Ascii.eqb c PyStr.space = false /\
  (c = "0" \/ c = "1" \/ c = "2" \/ c = "3" \/ c = "4" \/
   c = "5" \/ c = "6" \/ c = "7" \/ c = "8" \/ c = "9")%char.
Proof.
  destruct c as [[] [] [] [] [] [] [] []]; intro H; try discriminate H;
    repeat split; try reflexivity; tauto.
Qed.

Lemma digits_no_space s :
  digits_only s = true -> PyStr.has_char PyStr.space s = false.
Proof.
  induction s as [|c s IH]; simpl; intro H; [reflexivity |].
  apply andb_true_iff in H. destruct H as [Hc Hs].
  destruct (digit_char c Hc) as (_ & _ & E & _).
  rewrite E, (IH Hs). reflexivity.
Qed.

Lemma digits_lstrip s : digits_only s = true -> PyStr.lstrip s = s.
Proof.
  destruct s as [|c s]; simpl; intro H; [reflexivity |].
  apply andb_true_iff in H. destruct H as [Hc _].
  destruct (digit_char c Hc) as (E & _). rewrite E. reflexivity.
Qed.

Lemma digits_rstrip s : digits_only s = true -> PyStr.rstrip s = s.
Proof.
  induction s as [|c s IH]; simpl; intro H; [reflexivity |].
  apply andb_true_iff in H. destruct H as [Hc Hs].
  destruct (digit_char c Hc) as (E & _). rewrite (IH Hs), E.
  destruct s; reflexivity.
Qed.

Lemma digits_ungroup s :
  digits_only s = true -> PyStr.ungroup true s = Some s.
Proof.
  induction s as [|c s IH]; simpl; intro H; [reflexivity |].
  apply andb_true_iff in H. destruct H as [Hc Hs].
  destruct (digit_char c Hc) as (_ & E & _). rewrite E, Hc, (IH Hs).
  reflexivity.
Qed.

Lemma digits_only_ascii s :
  digits_only s = true -> PyStr.only_ascii s = true.
Proof.
  unfold PyStr.only_ascii.
  induction s as [|c s IH]; simpl; intro H; [reflexivity |].
  apply andb_true_iff in H. destruct H as [Hc Hs]. rewrite (IH Hs).
  destruct (digit_char c Hc) as (_ & _ & _ & K).
  destruct K as [K|[K|[K|[K|[K|[K|[K|[K|[K|K]]]]]]]]]; subst c; reflexivity.
Qed.

Lemma to_int_digits c s :
  digits_only (String c s) = true ->
  PyStr.to_int (String c s) =
  option_map Z.of_uint (NilZero.uint_of_string (String c s)).
Proof.
  intro H. unfold PyStr.to_int, PyStr.transform.
  rewrite (digits_only_ascii _ H).
  unfold PyStr.ascii_to_int, PyStr.strip.
  rewrite (digits_lstrip _ H), (digits_rstrip _ H).
  simpl in H. apply andb_true_iff in H. destruct H as [Hc Hs].
  assert (D : PyStr.digits (String c s) =
              option_map Z.of_uint (NilZero.uint_of_string (String c s))).
  { unfold PyStr.digits. rewrite Hc. cbn [PyStr.ungroup].
    destruct (digit_char c Hc) as (_ & E & _).
    rewrite E, Hc, (digits_ungroup _ Hs). reflexivity. }
  destruct (digit_char c Hc) as (_ & _ & _ & K).
  destruct K as [K|[K|[K|[K|[K|[K|[K|[K|[K|K]]]]]]]]]; subst c; exact D.
Qed.

Lemma uint_digits d : digits_only (NilEmpty.string_of_uint d) = true.
Proof. induction d; simpl; auto. Qed.

Lemma of_int_nonneg n :
  0 <= n ->
  exists d, d <> Decimal.Nil /\ Z.of_uint d = n /\
            PyStr.of_int n = NilEmpty.string_of_uint d.
Proof.
  intro H. destruct n as [|p|p]; [| | lia].
  - exists (Decimal.D0 Decimal.Nil). repeat split. discriminate.
  - exists (Pos.to_uint p). split; [apply DecimalPos.Unsigned.to_uint_nonnil |].
    split.
    + unfold Z.of_uint. rewrite DecimalPos.Unsigned.of_to. reflexivity.
    + unfold PyStr.of_int. simpl.
      pose proof (DecimalPos.Unsigned.to_uint_nonnil p) as N.
      destruct (Pos.to_uint p); [contradiction | reflexivity ..].
Qed.

Lemma of_int_digits n : 0 <= n -> digits_only (PyStr.of_int n) = true.
Proof.
  intro H. destruct (of_int_nonneg n H) as (d & _ & _ & E).
  rewrite E. apply uint_digits.
Qed.

Lemma to_int_of_int n : 0 <= n -> PyStr.to_int (PyStr.of_int n) = Some n.
Proof.
  intro H. destruct (of_int_nonneg n H) as (d & N & V & E).
  rewrite E.
  pose proof (uint_digits d) as G.
  pose proof (NilEmpty.usu d) as U.
  destruct (NilEmpty.string_of_uint d) as [|c s] eqn:S.
  - destruct d; discriminate S || contradiction.
  - rewrite (to_int_digits _ _ G). unfold NilZero.uint_of_string.
    rewrite U. simpl. rewrite V. reflexivity.
Qed.

Lemma split_messages_request D k :
  PyStr.has_char PyStr.space D = false ->
  PyStr.split PyStr.space (messages_request D k) =
  ["messages"; D; PyStr.of_int (Z.of_nat k)].
Proof.
  intro H. unfold messages_request.
  change ("messages " ++ D ++ " " ++ PyStr.of_int (Z.of_nat k))
    with ("messages" ++ String PyStr.space
            (D ++ String PyStr.space (PyStr.of_int (Z.of_nat k)))).
  rewrite split_at_separator by reflexivity.
  rewrite split_at_separator by exact H.
  rewrite split_without_separator; [reflexivity |].
  apply digits_no_space, of_int_digits. lia.
Qed.

(** ** Sorting newest first *)

Section SortedReverse.
Context {A : Type} (key : A -> Z).

Lemma insert_reverse_perm x l :
  Permutation (insert_reverse key x l) (x :: l).
Proof.
  induction l as [|y l IH]; simpl; [reflexivity |].
  destruct (key y <=? key x); [reflexivity |].
  rewrite IH. apply perm_swap.
Qed.

Lemma sorted_reverse_perm l : Permutation (sorted_reverse key l) l.
Proof.
  induction l as [|x l IH]; simpl; [reflexivity |].
  rewrite insert_reverse_perm. constructor. exact IH.
Qed.

Lemma insert_reverse_sorted x l :
  StronglySorted (not_older key) l ->
  StronglySorted (not_older key) (insert_reverse key x l).
Proof.
  induction 1 as [|y l Hl IH Hy]; simpl; [repeat constructor |].
  destruct (key y <=? key x) eqn:E.
  - apply Z.leb_le in E. constructor; [constructor; assumption |].
    constructor; [exact E |].
    eapply Forall_impl; [| exact Hy]. unfold not_older. intros; lia.
  - apply Z.leb_gt in E. constructor; [exact IH |].
    eapply Permutation_Forall;
      [symmetry; apply insert_reverse_perm |].
    constructor; [unfold not_older; lia | exact Hy].
Qed.

Lemma sorted_reverse_sorted l :
  StronglySorted (not_older key) (sorted_reverse key l).
Proof.
  induction l as [|x l IH]; simpl; [constructor |].
  apply insert_reverse_sorted. exact IH.
Qed.

Lemma sorted_app_inv (R : A -> A -> Prop) l1 l2 :
  StronglySorted R (l1 ++ l2) ->
  StronglySorted R l1 /\ forall a b, In a l1 -> In b l2 -> R a b.
Proof.
  induction l1 as [|x l1 IH]; simpl; intro H.
  - split; [constructor | contradiction].
  - inversion H as [|? ? Hs Hf]; subst. destruct (IH Hs) as [S1 S2].
    apply Forall_app in Hf. destruct Hf as [F1 F2].
    split; [constructor; assumption |].
    intros a b [<- | Ha] Hb.
    + rewrite Forall_forall in F2. exact (F2 b Hb).
    + exact (S2 a b Ha Hb).
Qed.

Lemma sorted_strict l :
  NoDup (map key l) -> StronglySorted (not_older key) l ->
  StronglySorted (fun a b => key b < key a) l.
Proof.
  induction l as [|x l IH]; intros N S; [constructor |].
  inversion N as [|? ? Hx N']; inversion S as [|? ? S' F]; subst.
  constructor; [exact (IH N' S') |].
  rewrite Forall_forall in *. intros y Hy.
  specialize (F y Hy). unfold not_older in F.
  assert (key y <> key x).
  { intro E. apply Hx. rewrite <- E. apply in_map. exact Hy. }
  lia.
Qed.

End SortedReverse.

(** Of a dialogue's messages, the [k] that the formatter shows. *)
Lemma shown_messages (l : list Message.t) (k : nat) :
  NoDup (map Message.id l) -> (k <= List.length l)%nat ->
  let shown := firstn k (sorted_reverse Message.id l) in
  List.length shown = k /\
  StronglySorted newer shown /\
  (forall m, In m shown -> In m l) /\
  (forall m m', In m shown -> In m' l -> ~ In m' shown ->
                Message.id m' < Message.id m).
Proof.
  intros N K shown.
  pose proof (sorted_reverse_perm Message.id l) as P.
  assert (S : StronglySorted newer (sorted_reverse Message.id l)).
  { apply (sorted_strict Message.id); [| apply sorted_reverse_sorted].
    eapply Permutation_NoDup; [| exact N].
    apply Permutation_map. symmetry. exact P. }
  rewrite <- (firstn_skipn k (sorted_reverse Message.id l)) in S.
  apply sorted_app_inv in S. destruct S as [S1 S2]. fold shown in S1, S2.
  split; [| split; [exact S1 | split]].
  - unfold shown. rewrite length_firstn.
    rewrite (Permutation_length P). lia.
  - intros m Hm. apply (Permutation_in _ P).
    rewrite <- (firstn_skipn k (sorted_reverse Message.id l)).
    apply in_or_app. left. exact Hm.
  - intros m m' Hm Hm' Hn. apply (S2 m m' Hm).
    apply (Permutation_in _ (Permutation_sym P)) in Hm'.
    rewrite <- (firstn_skipn k (sorted_reverse Message.id l)) in Hm'.
    apply in_app_or in Hm'. destruct Hm' as [H | H]; [contradiction | exact H].
Qed.

Lemma format_messages_body_run sm cls s lg pr ck D k :
  PyStr.has_char PyStr.space D = false ->
  has_dialogue D s = true ->
  __format___body (mk_ChatSql cls (Some sm)) (messages_request D k)
                  (mk_World s lg pr ck []) =
  (Ret (Some (PyStr.join PyStr.newline
                (map message_line
                     (firstn k (sorted_reverse Message.id
                                               (messages_of D s)))))),
   mk_World s lg pr ck []).
Proof.
  intros HD H.
  destruct (has_dialogue_found _ _ H) as [d E].
  destruct (found_dialogue_some _ _ _ E) as [_ N].
  unfold found_dialogue in E.
  unfold __format___body. unfold bind at 1. unfold open_session.
  cbn [DB_session]. unfold ret at 1.
  change (String.eqb (messages_request D k) "dialogues") with false.
  change (String.eqb (messages_request D k) "masks") with false.
  change (PyStr.contains "messages" (messages_request D k)) with true.
  cbv iota.
  rewrite (split_messages_request D k HD).
  change (Z.of_nat (List.length ["messages"; D; PyStr.of_int (Z.of_nat k)])
          <? 2) with false.
  change (2 <=? Z.of_nat
                  (List.length ["messages"; D; PyStr.of_int (Z.of_nat k)]))
    with true.
  cbv iota.
  change (item (-1) ["messages"; D; PyStr.of_int (Z.of_nat k)])
    with (ret (A:=string) (PyStr.of_int (Z.of_nat k))).
  change (item 1 ["messages"; D; PyStr.of_int (Z.of_nat k)])
    with (ret (A:=string) D).
  unfold bind at 1. unfold bind at 1. unfold ret at 1.
  unfold int. rewrite to_int_of_int by lia.
  unfold bind, ret, first, bind, storage_access. cbn [faults db].
  rewrite E. unfold Dialogue_messages, all, bind, storage_access.
  cbn [faults db]. rewrite N. unfold slice_to.
  replace (0 <=? Z.of_nat k) with true by (symmetry; apply Z.leb_le; lia).
  rewrite Nat2Z.id. reflexivity.
Qed.

(** C3 as stated does not hold for every dialogue name: the request is cut
    at its spaces and the second field is taken for the name, so for the
    dialogue ["a b"], which exists and has a message, the request
    ["messages a b 1"] is answered as a request about a dialogue ["a"]. *)
Lemma format_messages_name_with_space_counterexample :
  has_dialogue "a b" (db (dialogue_world "a b" 1)) = true /\
  (1 <= List.length (messages_of "a b" (db (dialogue_world "a b" 1))))%nat /\
  fst (__format__ sample_self (messages_request "a b" 1)
                  (dialogue_world "a b" 1)) =
    Ret (Some "未找到 a 这个对话") /\
  fst (__format__ sample_self (messages_request "a b" 1)
                  (dialogue_world "a b" 1)) <>
    Ret (Some (PyStr.join PyStr.newline
                 (map message_line
                      (firstn 1 (sorted_reverse Message.id
                         (messages_of "a b"
                                      (db (dialogue_world "a b" 1)))))))).
Proof.
  split; [reflexivity | split; [simpl; lia | split]].
  - reflexivity.
  - vm_compute. discriminate.
Qed.

(** C3, amended.  For a dialogue name without a space, when the dialogue
    exists and has at least [k] messages, the request
    ["messages <name> <k>"] is answered with the lines of [k] of the
    dialogue's messages joined by newlines: the messages shown are in
    descending order of id, and every message of the dialogue that is not
    shown has a smaller id than every message shown.  Nothing is written or
    logged. *)
Theorem format_messages_newest_first :
  forall self w D k,
    initialised self -> fault_free w -> store_ok (db w) ->
    PyStr.has_char PyStr.space D = false ->
    has_dialogue D (db w) = true ->
    (k <= List.length (messages_of D (db w)))%nat ->
    exists shown,
      __format__ self (messages_request D k) w =
        (Ret (Some (PyStr.join PyStr.newline (map message_line shown))), w) /\
      List.length shown = k /\
      StronglySorted newer shown /\
      (forall m, In m shown -> In m (messages_of D (db w))) /\
      (forall m m', In m shown -> In m' (messages_of D (db w)) ->
                    ~ In m' shown -> Message.id m' < Message.id m).
Proof.
  intros [cls [sm|]] [s lg pr ck fl] D k Hi Hf Hok HD H K;
    [| exfalso; apply Hi; reflexivity].
  unfold fault_free in Hf. simpl in Hf, Hok, H, K |- *. subst fl.
  exists (firstn k (sorted_reverse Message.id (messages_of D s))).
  split.
  - unfold __format__, try_except.
    rewrite (format_messages_body_run sm cls s lg pr ck D k HD H).
    reflexivity.
  - apply shown_messages; [| exact K].
    apply increasing_NoDup. unfold messages_of.
    apply sorted_map_filter. apply (ok_message_ids _ Hok).
Qed.

Lemma format_messages_newest_first_witness :
  exists shown,
    __format__ sample_self (messages_request "D" 5) (dialogue_world "D" 30) =
      (Ret (Some (PyStr.join PyStr.newline (map message_line shown))),
       dialogue_world "D" 30) /\
    List.length shown = 5%nat /\
    StronglySorted newer shown /\
    (forall m, In m shown ->
               In m (messages_of "D" (db (dialogue_world "D" 30)))) /\
    (forall m m', In m shown ->
                  In m' (messages_of "D" (db (dialogue_world "D" 30))) ->
                  ~ In m' shown -> Message.id m' < Message.id m).
Proof.
  apply (format_messages_newest_first sample_self (dialogue_world "D" 30)
           "D" 5).
  - discriminate.
  - reflexivity.
  - closed_store.
  - reflexivity.
  - reflexivity.
  - simpl. lia.
Defined.

(** ** The method boundary *)

Lemma readonly_get_mask_body self name : readonly (get_mask_body self name).
Proof. unfold get_mask_body. peel. Qed.

Lemma readonly_get_dialogue_body self name :
  readonly (get_dialogue_body self name).
Proof. unfold get_dialogue_body. peel. Qed.

Lemma readonly_get_messages_body self name :
  readonly (get_messages_body self name).
Proof.
  unfold get_messages_body.
  apply readonly_bind; [auto with chat | intro session; cbv beta].
  apply readonly_bind; [auto with chat | intro dialogue; cbv beta].
  destruct dialogue; peel.
Qed.

Lemma fmap_raise_inv {A B} (f : A -> B) (c : M A) w e w' :
  fmap f c w = (Raise e, w') -> c w = (Raise e, w').
Proof.
  unfold fmap. intro H. apply bind_raise_inv in H.
  destruct H as [H | (a & w1 & _ & H)]; [exact H | discriminate H].
Qed.

Lemma atomic_fmap {A B} (f : A -> B) (c : M A) : atomic c -> atomic (fmap f c).
Proof. intros H w e w' E. apply fmap_raise_inv in E. exact (H w e w' E). Qed.

Lemma total_fmap {A B} (f : A -> B) (c : M A) : total c -> total (fmap f c).
Proof.
  intro H. unfold fmap. apply total_bind; [exact H | intro; apply total_ret].
Qed.

Lemma atomic_body_of self op : atomic (body_of self op).
Proof.
  destruct op; simpl; apply atomic_fmap;
    auto using atomic_init_body, atomic_add_mask_body, atomic_delete_mask_body,
      atomic_add_message_body, atomic_update_message_body,
      atomic_delete_message_body, readonly_atomic, readonly_get_mask_body,
      readonly_get_dialogue_body, readonly_get_messages_body,
      readonly_create_dialogue_body, readonly_format_body.
Qed.

Lemma total_log_then {A} (e : exn) (a : A) : total (log_exception e ;; ret a).
Proof.
  apply total_bind; [apply total_log_exception | intro; apply total_ret].
Qed.

Lemma total_call self op : total (call self op).
Proof.
  destruct op; simpl; apply total_fmap; apply total_try; intro e;
    try apply total_log_exception; try apply total_log_then.
  apply total_bind; [apply total_log_exception | intro; apply total_print].
Qed.

(** What the caller gets when the statements under [try:] raise. *)
Lemma call_on_failure self op w e w1 :
  body_of self op w = (Raise e, w1) ->
  exists w', call self op w = (Ret (failure_result self op e), w') /\
             db w' = db w1 /\
             logged w' = (logged w1 ++ [exn_str e])%list.
Proof.
  intro H. destruct op; simpl in H; apply fmap_raise_inv in H;
    cbn [call failure_result];
    unfold fmap, bind, __init__, add_mask, get_mask, delete_mask,
      create_dialogue, get_dialogue, add_message, update_message,
      delete_message, get_messages, __format__, try_except;
    rewrite H; eexists; (split; [reflexivity | split; reflexivity]).
Qed.

(** C8 as stated does not hold for the formatter: when the storage fails
    under [__format__], the caller gets the text of the failure, which is
    neither absent nor empty. *)
Lemma format_failure_returns_text_counterexample :
  let w := mk_World (db started_world) [] [] noon
                    [Some "(sqlite3.OperationalError) database is locked"] in
  fst (body_of sample_self (Op_format "masks") w) =
    Raise (OperationalError "(sqlite3.OperationalError) database is locked") /\
  fst (call sample_self (Op_format "masks") w) =
    Ret (VStr "(sqlite3.OperationalError) database is locked") /\
  fst (call sample_self (Op_format "masks") w) <> Ret VNone /\
  fst (call sample_self (Op_format "masks") w) <> Ret (VStr "").
Proof.
  repeat split; try reflexivity; vm_compute; discriminate.
Qed.

(** C8, amended.  Every method returns to its caller, whatever the object,
    the arguments, the file and the storage do.  When the statements under
    its [try:] raise, nothing has been written to the file, the text of the
    exception is appended to the log, and the caller gets [None]; except
    that the constructor hands back the object without its session factory
    and [__format__] hands back the text of the exception. *)
Theorem no_exception_leaves_a_method :
  forall self op w,
    exists v w',
      call self op w = (Ret v, w') /\
      forall e w1,
        body_of self op w = (Raise e, w1) ->
        db w1 = db w /\ db w' = db w /\
        logged w' = (logged w1 ++ [exn_str e])%list /\
        v = failure_result self op e.
Proof.
  intros self op w. destruct (total_call self op w) as (v & w' & E).
  exists v, w'. split; [exact E |].
  intros e w1 B.
  destruct (call_on_failure self op w e w1 B) as (w2 & E2 & D & L).
  rewrite E in E2. injection E2 as -> ->.
  pose proof (atomic_body_of self op w e w1 B) as At.
  repeat split; congruence.
Qed.

Lemma no_exception_leaves_a_method_witness :
  exists w',
    call sample_self (Op_add_mask "default" "") started_world
      = (Ret VNone, w') /\
    db w' = db started_world /\
    logged w' =
      ["(sqlite3.IntegrityError) UNIQUE constraint failed: mask.mask_name"].
Proof.
  destruct (no_exception_leaves_a_method
              sample_self (Op_add_mask "default" "") started_world)
    as (v & w' & E & H).
  destruct (H (IntegrityError
                 "(sqlite3.IntegrityError) UNIQUE constraint failed: mask.mask_name")
              started_world eq_refl) as (_ & D & L & V).
  exists w'. rewrite E, V. repeat split; assumption.
Defined.

(** ** Mask names *)

Lemma add_mask_body_run sm cls s lg pr ck name describe :
  add_mask_body (mk_ChatSql cls (Some sm)) name describe
                (mk_World s lg pr ck []) =
  if existsb (mask_name_is name) (masks s)
  then (Raise (IntegrityError
          "(sqlite3.IntegrityError) UNIQUE constraint failed: mask.mask_name"),
        mk_World s lg pr ck [])
  else (Ret tt,
        mk_World
          (mk_Store
             (masks s ++ [Mask.mk (next_rowid (map Mask.mask_id (masks s)))
                                  name describe])
             (dialogues s) (messages s))
          lg pr ck []).
Proof.
  unfold add_mask_body, bind, open_session, commit, bind, storage_access.
  simpl. unfold mask_name_is.
  destruct (existsb (fun m => String.eqb (Mask.mask_name m) name) (masks s));
    reflexivity.
Qed.

Lemma existsb_mask_name name l :
  In name (map Mask.mask_name l) -> existsb (mask_name_is name) l = true.
Proof.
  intro H. apply in_map_iff in H. destruct H as (m & E & Hm).
  apply existsb_exists. exists m. split; [exact Hm |].
  unfold mask_name_is. rewrite E. apply String.eqb_refl.
Qed.

Lemma count_masks_ge_1 name s :
  existsb (mask_name_is name) (masks s) = true -> (1 <= count_masks name s)%nat.
Proof.
  unfold count_masks. intro H.
  destruct (filter (mask_name_is name) (masks s)) eqn:F; [| simpl; lia].
  assert (N : hd_error (filter (mask_name_is name) (masks s)) = None)
    by (rewrite F; reflexivity).
  apply hd_filter_none in N. congruence.
Qed.

Lemma add_mask_existing self w name describe :
  In name (map Mask.mask_name (masks (db w))) ->
  exists line w',
    add_mask self name describe w = (Ret tt, w') /\
    db w' = db w /\ printed w' = printed w /\
    logged w' = (logged w ++ [line])%list.
Proof.
  intro H. apply existsb_mask_name in H.
  destruct self as [cls [sm|]], w as [s lg pr ck fl]; simpl in H.
  - destruct fl as [|[msg|] fl].
    + unfold add_mask, try_except. rewrite add_mask_body_run, H.
      eexists. eexists. repeat split.
    + unfold add_mask, try_except, add_mask_body, bind, open_session, commit,
        bind, storage_access. simpl.
      eexists. eexists. repeat split.
    + unfold add_mask, try_except, add_mask_body, bind, open_session, commit,
        bind, storage_access. simpl. unfold mask_name_is in H. rewrite H.
      eexists. eexists. repeat split.
  - eexists. eexists. repeat split.
Qed.

Lemma init_run cls s lg pr ck :
  exists w',
    __init__ cls (mk_World s lg pr ck []) =
      (Ret (mk_ChatSql cls (Some (sessionmaker_bind "sqlite:///chat.db"))), w')
    /\ fault_free w' /\ evolves s (db w') /\
    existsb (mask_name_is "default") (masks (db w')) = true.
Proof.
  unfold __init__, try_except, __init___body, bind, create_all, storage_access,
    add_mask, try_except.
  cbn [faults]. rewrite add_mask_body_run.
  destruct (existsb (mask_name_is "default") (masks s)) eqn:E.
  - eexists. split; [reflexivity |]. split; [reflexivity |].
    split; [apply evolves_refl | exact E].
  - eexists. split; [reflexivity |]. split; [reflexivity |]. split.
    + exists [InsertMask "default" ""]. simpl.
      unfold mask_name_is in E. rewrite E. reflexivity.
    + cbn [db masks]. rewrite existsb_app. simpl.
      apply orb_true_r.
Qed.

(** C9.  A mask name never occurs twice.  [add_mask] with a name that is
    in the table returns normally, leaves the file as it was and logs one
    line.  From a file in which the names are distinct, whatever calls
    follow and whichever storage accesses fail, no name occurs more than
    once.  When the storage works, running the constructor twice returns an
    object both times and the file then holds exactly one mask named
    ["default"]. *)
Theorem mask_names_stay_unique :
  (forall self w name describe,
      In name (map Mask.mask_name (masks (db w))) ->
      exists line w',
        add_mask self name describe w = (Ret tt, w') /\
        db w' = db w /\ printed w' = printed w /\
        logged w' = (logged w ++ [line])%list) /\
  (forall ops self w name,
      store_ok (db w) ->
      (count_masks name (db (snd (run ops (self, w)))) <= 1)%nat) /\
  (forall cls w,
      store_ok (db w) -> fault_free w ->
      let once := __init__ cls w in
      let twice := __init__ cls (snd once) in
      (exists self, fst once = Ret self /\ initialised self) /\
      (exists self, fst twice = Ret self /\ initialised self) /\
      count_masks "default" (db (snd once)) = 1%nat /\
      count_masks "default" (db (snd twice)) = 1%nat).
Proof.
  split; [| split].
  - apply add_mask_existing.
  - intros ops self w name H. apply count_masks_le_1.
    apply (store_ok_run ops (self, w)). exact H.
  - intros cls [s lg pr ck fl] Hok Hf. unfold fault_free in Hf.
    simpl in Hok, Hf. subst fl.
    destruct (init_run cls s lg pr ck) as (w1 & E1 & F1 & V1 & D1).
    destruct w1 as [s1 lg1 pr1 ck1 fl1]. unfold fault_free in F1.
    simpl in F1. subst fl1.
    destruct (init_run cls s1 lg1 pr1 ck1) as (w2 & E2 & F2 & V2 & D2).
    cbv zeta. rewrite E1. cbn [fst snd]. rewrite E2. cbn [fst snd].
    assert (O1 : store_ok s1) by (eapply store_ok_evolves; eassumption).
    assert (O2 : store_ok (db w2)) by (eapply store_ok_evolves; eassumption).
    pose proof (count_masks_le_1 "default" _ O1).
    pose proof (count_masks_le_1 "default" _ O2).
    pose proof (count_masks_ge_1 "default" _ D1).
    pose proof (count_masks_ge_1 "default" _ D2).
    cbn [db] in *.
    repeat split; try lia; eexists; (split; [reflexivity | discriminate]).
Qed.

Lemma mask_names_stay_unique_witness :
  (exists line w',
      add_mask sample_self "default" "again" started_world = (Ret tt, w') /\
      db w' = db started_world /\ printed w' = printed started_world /\
      logged w' = (logged started_world ++ [line])%list) /\
  (count_masks "Mask1"
     (db (snd (run [Op_add_mask "Mask1" "test mask"; Op_add_mask "Mask1" "";
                    Op_delete_mask "ghost"; Op_init]
                   (sample_self, fresh_world)))) <= 1)%nat /\
  count_masks "default"
    (db (snd (__init__ sample_class
                       (snd (__init__ sample_class fresh_world))))) = 1%nat.
Proof.
  destruct mask_names_stay_unique as (A & B & C).
  split; [| split].
  - apply (A sample_self started_world "default" "again").
    simpl. left. reflexivity.
  - apply (B _ sample_self fresh_world "Mask1"). closed_store.
  - apply (C sample_class fresh_world); [closed_store | reflexivity].
Defined.

(** ** The scenarios of the specification, evaluated *)

Example split_request :
  PyStr.split PyStr.space "messages Dialogue1 5" =
  ["messages"; "Dialogue1"; "5"].
Proof. reflexivity. Qed.

Example to_int_grouped : PyStr.to_int " +1_000 " = Some 1000.
Proof. reflexivity. Qed.

Example to_int_name : PyStr.to_int "Dialogue1" = None.
Proof. reflexivity. Qed.

Example datetime_str_later : datetime_str later = "2024-06-29 12:00:05.001500".
Proof. reflexivity. Qed.

(** The class statement run at noon gives the class used in the samples. *)
Example class_defined_at_noon :
  class_ChatSql fresh_world = (Ret sample_class, fresh_world).
Proof. reflexivity. Qed.

(** The constructor on a new file inserts the default mask. *)
Example init_on_new_file :
  __init__ sample_class fresh_world =
  (Ret sample_self,
   mk_World (mk_Store [Mask.mk 1 "default" ""] [] []) [] [] noon []).
Proof. reflexivity. Qed.

(** Two calls without [send_time], made at different times, both store the
    time of the definition. *)
Example default_time_is_stale :
  let w1 := snd (add_message sample_self "D" USER TEXT "a" true None
                             (set_clock later started_world)) in
  let w2 := snd (add_message sample_self "D" USER TEXT "b" true None
                             (set_clock evening w1)) in
  map Message.send_time (messages (db w2)) = [noon; noon] /\
  clock w2 = evening /\ noon <> later /\ noon <> evening.
Proof. repeat split; try reflexivity; discriminate. Qed.

(** Thirty messages, five asked for: ids 30, 29, 28, 27, 26. *)
Example format_five_of_thirty :
  fst (__format__ sample_self "messages D 5" (dialogue_world "D" 30)) =
  Ret (Some (PyStr.join PyStr.newline
               (map message_line
                    (map (text_message (Some "D")) [30; 29; 28; 27; 26]%nat)))).
Proof. vm_compute. reflexivity. Qed.

(** The demonstration at the end of the module: the dialogue is never
    created, so its thirty messages are stored without a dialogue and the
    final request finds nothing. *)
Example demonstration :
  let w :=
    snd (run (Op_add_mask "Mask1" "test mask"
              :: Op_create_dialogue "Dialogue1" "Mask1"
              :: map (fun i => Op_add_message "Dialogue1" USER TEXT
                                 (PyStr.of_int (Z.of_nat i)) true None)
                     (seq 0 30))
             (sample_self, started_world)) in
  dialogues (db w) = [] /\
  List.length (messages (db w)) = 30%nat /\
  Forall (fun m => Message.dialogue_name m = None) (messages (db w)) /\
  fst (get_messages sample_self "Dialogue1" w) = Ret (Some []) /\
  fst (__format__ sample_self "messages Dialogue1 6" w) =
    Ret (Some "未找到 Dialogue1 这个对话").
Proof.
  vm_compute. repeat split; try reflexivity.
  repeat constructor.
Qed.

(** * Further properties of the methods *)

(** ** Masks: insert, look up, delete *)

Lemma found_mask_none name s :
  found_mask name s = None <-> has_mask name s = false.
Proof. apply hd_filter_none. Qed.

Lemma found_mask_some name s m :
  found_mask name s = Some m -> In m (masks s) /\ Mask.mask_name m = name.
Proof.
  intro H. apply hd_filter_some in H. destruct H as [H1 H2].
  split; [exact H1 | apply String.eqb_eq; exact H2].
Qed.

Lemma has_mask_false name s :
  ~ In name (map Mask.mask_name (masks s)) -> has_mask name s = false.
Proof.
  intro H. unfold has_mask. destruct (existsb _ _) eqn:E; [| reflexivity].
  exfalso. apply H. apply existsb_exists in E. destruct E as (m & Hm & Em).
  apply String.eqb_eq in Em. rewrite <- Em. apply in_map. exact Hm.
Qed.

Lemma one_row_per_key {A B} (col : A -> B) (table : list A) (r r' : A) :
  NoDup (map col table) -> In r table -> In r' table -> col r = col r' ->
  r = r'.
Proof.
  induction table as [|x table IH]; intros N Hr Hr' E; [destruct Hr |].
  inversion N as [|? ? Hx N']; subst.
  destruct Hr as [<- | Hr]; destruct Hr' as [<- | Hr']; auto.
  - exfalso. apply Hx. rewrite E. apply in_map, Hr'.
  - exfalso. apply Hx. rewrite <- E. apply in_map, Hr.
Qed.

Lemma found_mask_the_one s m :
  store_ok s -> In m (masks s) -> found_mask (Mask.mask_name m) s = Some m.
Proof.
  intros Hok Hm. destruct (found_mask (Mask.mask_name m) s) as [m0|] eqn:E.
  - destruct (found_mask_some _ _ _ E) as [H0 N0]. f_equal.
    apply (one_row_per_key Mask.mask_name (masks s));
      [apply (ok_mask_names _ Hok) | assumption | assumption | exact N0].
  - apply found_mask_none in E. unfold has_mask in E.
    assert (T : existsb (mask_name_is (Mask.mask_name m)) (masks s) = true).
    { apply existsb_exists. exists m. split; [exact Hm |].
      apply String.eqb_refl. }
    congruence.
Qed.

Lemma get_mask_run sm cls s lg pr ck name :
  get_mask (mk_ChatSql cls (Some sm)) name (mk_World s lg pr ck []) =
  (Ret (found_mask name s), mk_World s lg pr ck []).
Proof. reflexivity. Qed.

Lemma delete_mask_body_run sm cls s lg pr ck name :
  delete_mask_body (mk_ChatSql cls (Some sm)) name (mk_World s lg pr ck []) =
  (Ret tt,
   match found_mask name s with
   | Some m =>
       mk_World
         (mk_Store (filter (fun m' => negb (Mask.mask_id m' =? Mask.mask_id m))
                           (masks s))
                   (dialogues s) (messages s))
         lg pr ck []
   | None =>
       mk_World s lg (pr ++ ["Mask with name " ++ name ++ " not found"]) ck []
   end).
Proof.
  unfold delete_mask_body, bind, open_session. cbn [DB_session ret].
  rewrite get_mask_run. destruct (found_mask name s); reflexivity.
Qed.

(** X1.  A mask added under a name that is not in the table gets the next
    row id and is what [get_mask] then returns for that name; the rows that
    were there, the other tables and the log are untouched. *)
Theorem add_mask_then_get_mask :
  forall self w name describe,
    initialised self -> fault_free w ->
    ~ In name (map Mask.mask_name (masks (db w))) ->
    let added := Mask.mk (next_rowid (map Mask.mask_id (masks (db w))))
                         name describe in
    let w' := snd (add_mask self name describe w) in
    fst (add_mask self name describe w) = Ret tt /\
    masks (db w') = (masks (db w) ++ [added])%list /\
    dialogues (db w') = dialogues (db w) /\
    messages (db w') = messages (db w) /\
    logged w' = logged w /\
    get_mask self name w' = (Ret (Some added), w').
Proof.
  intros [cls [sm|]] [s lg pr ck fl] name describe Hi Hf Hn;
    [| exfalso; apply Hi; reflexivity].
  unfold fault_free in Hf. simpl in Hf, Hn. subst fl.
  apply has_mask_false in Hn. unfold has_mask in Hn.
  cbv zeta. unfold add_mask, try_except. rewrite add_mask_body_run, Hn.
  cbn [fst snd db masks dialogues messages logged].
  repeat split. rewrite get_mask_run. f_equal. f_equal.
  unfold found_mask, rows. cbn [q_table q_where filter_by query_Mask masks].
  rewrite filter_app.
  assert (E : filter (fun r => true && mask_name_is name r) (masks s) = []).
  { destruct (filter _ (masks s)) as [|m r] eqn:F; [reflexivity |].
    assert (Hm : In m (filter (fun r => true && mask_name_is name r) (masks s)))
      by (rewrite F; left; reflexivity).
    apply filter_In in Hm. destruct Hm as [Hm Pm].
    assert (existsb (mask_name_is name) (masks s) = true)
      by (apply existsb_exists; exists m; split; assumption).
    congruence. }
  rewrite E. simpl. unfold mask_name_is. simpl. rewrite String.eqb_refl.
  reflexivity.
Qed.

Lemma add_mask_then_get_mask_witness :
  get_mask sample_self "Mask1"
           (snd (add_mask sample_self "Mask1" "test mask" started_world)) =
  (Ret (Some (Mask.mk 2 "Mask1" "test mask")),
   snd (add_mask sample_self "Mask1" "test mask" started_world)).
Proof.
  apply (add_mask_then_get_mask sample_self started_world "Mask1" "test mask").
  - discriminate.
  - reflexivity.
  - simpl. intros [H | []]. discriminate H.
Defined.

(** X2.  [delete_mask] on the name of a stored mask removes that row and
    nothing else: the other masks stay, and so do all dialogues and
    messages, including the dialogues bound to the deleted mask, whose
    [mask_id] now points at no row.  [get_mask] for the name then finds
    nothing. *)
Theorem delete_mask_removes_only_the_mask :
  forall self w m,
    initialised self -> fault_free w -> store_ok (db w) ->
    In m (masks (db w)) ->
    let w' := snd (delete_mask self (Mask.mask_name m) w) in
    fst (delete_mask self (Mask.mask_name m) w) = Ret tt /\
    (forall m', In m' (masks (db w')) <-> In m' (masks (db w)) /\ m' <> m) /\
    dialogues (db w') = dialogues (db w) /\
    messages (db w') = messages (db w) /\
    ~ In (Mask.mask_id m) (map Mask.mask_id (masks (db w'))) /\
    printed w' = printed w /\ logged w' = logged w /\
    fst (get_mask self (Mask.mask_name m) w') = Ret None.
Proof.
  intros [cls [sm|]] [s lg pr ck fl] m Hi Hf Hok Hm;
    [| exfalso; apply Hi; reflexivity].
  unfold fault_free in Hf. simpl in Hf, Hok, Hm. subst fl.
  cbv zeta. unfold delete_mask, try_except.
  rewrite delete_mask_body_run, (found_mask_the_one s m Hok Hm).
  cbn [fst snd db masks dialogues messages logged printed].
  assert (Ids : NoDup (map Mask.mask_id (masks s)))
    by (apply increasing_NoDup, (ok_mask_ids _ Hok)).
  assert (Keep : forall m', In m' (filter
                   (fun m' => negb (Mask.mask_id m' =? Mask.mask_id m))
                   (masks s)) <-> In m' (masks s) /\ m' <> m).
  { intro m'. rewrite filter_In, negb_true_iff, Z.eqb_neq. split.
    - intros [H1 H2]. split; [exact H1 | congruence].
    - intros [H1 H2]. split; [exact H1 |]. intro E. apply H2.
      apply (one_row_per_key Mask.mask_id (masks s)); assumption. }
  split; [reflexivity |]. split; [exact Keep |].
  split; [reflexivity |]. split; [reflexivity |].
  split; [| split; [reflexivity | split; [reflexivity |]]].
  - intro Hin. apply in_map_iff in Hin. destruct Hin as (m' & E & Hm').
    apply Keep in Hm'. destruct Hm' as [H1 H2]. apply H2.
    apply (one_row_per_key Mask.mask_id (masks s)); assumption.
  - rewrite get_mask_run. cbn [fst]. f_equal.
    apply found_mask_none. unfold has_mask. cbn [masks].
    destruct (existsb _ _) eqn:E; [| reflexivity].
    exfalso. apply existsb_exists in E. destruct E as (m' & Hm' & Em).
    apply Keep in Hm'. destruct Hm' as [H1 H2]. apply H2.
    apply String.eqb_eq in Em.
    apply (one_row_per_key Mask.mask_name (masks s));
      [apply (ok_mask_names _ Hok) | assumption | assumption | exact Em].
Qed.

Lemma delete_mask_removes_only_the_mask_witness :
  db (snd (delete_mask sample_self "Mask1" two_masks_world)) =
    mk_Store [Mask.mk 1 "default" ""] [Dialogue.mk "D1" (Some 2)]
             (messages (db two_masks_world)) /\
  fst (get_mask sample_self "Mask1"
                (snd (delete_mask sample_self "Mask1" two_masks_world))) =
    Ret None.
Proof.
  split; [reflexivity |].
  apply (delete_mask_removes_only_the_mask
           sample_self two_masks_world (Mask.mk 2 "Mask1" "test mask")
           ltac:(discriminate) ltac:(reflexivity) ltac:(closed_store)).
  simpl. right. left. reflexivity.
Defined.

(** X3.  [delete_mask] on a name that no mask has writes nothing and prints
    that the mask was not found. *)
Theorem delete_mask_missing_name :
  forall self w name,
    initialised self -> fault_free w ->
    ~ In name (map Mask.mask_name (masks (db w))) ->
    delete_mask self name w =
    (Ret tt,
     mk_World (db w) (logged w)
              (printed w ++ ["Mask with name " ++ name ++ " not found"])
              (clock w) (faults w)).
Proof.
  intros [cls [sm|]] [s lg pr ck fl] name Hi Hf Hn;
    [| exfalso; apply Hi; reflexivity].
  unfold fault_free in Hf. simpl in Hf, Hn. subst fl.
  apply has_mask_false, found_mask_none in Hn.
  unfold delete_mask, try_except. rewrite delete_mask_body_run, Hn.
  reflexivity.
Qed.

Lemma delete_mask_missing_name_witness :
  delete_mask sample_self "ghost" started_world =
  (Ret tt,
   mk_World (db started_world) [] ["Mask with name ghost not found"] noon []).
Proof.
  apply (delete_mask_missing_name sample_self started_world "ghost").
  - discriminate.
  - reflexivity.
  - simpl. intros [H | []]. discriminate H.
Defined.

(** X4.  [delete_mask] looks the mask up through [get_mask], which swallows
    a storage failure and returns [None].  When that look-up fails, the
    failure is logged, the method prints that the mask was not found,
    whether or not it is stored, and nothing is deleted. *)
Theorem delete_mask_when_lookup_fails :
  forall self w name text rest,
    initialised self -> faults w = Some text :: rest ->
    delete_mask self name w =
    (Ret tt,
     mk_World (db w) (logged w ++ [text])
              (printed w ++ ["Mask with name " ++ name ++ " not found"])
              (clock w) rest).
Proof.
  intros [cls [sm|]] [s lg pr ck fl] name text rest Hi Hf;
    [| exfalso; apply Hi; reflexivity].
  simpl in Hf. subst fl. reflexivity.
Qed.

Lemma delete_mask_when_lookup_fails_witness :
  delete_mask sample_self "Mask1"
              (set_faults [Some "database is locked"] two_masks_world) =
  (Ret tt,
   mk_World (db two_masks_world) ["database is locked"]
            ["Mask with name Mask1 not found"] evening []) /\
  has_mask "Mask1" (db two_masks_world) = true.
Proof.
  split; [| reflexivity].
  apply (delete_mask_when_lookup_fails
           sample_self (set_faults [Some "database is locked"] two_masks_world)
           "Mask1" "database is locked" []).
  - discriminate.
  - reflexivity.
Defined.

(** ** Messages: delete, add to a dialogue, update twice *)

Lemma delete_message_body_run sm cls s lg pr ck i :
  sqlite_integer i = true ->
  delete_message_body (mk_ChatSql cls (Some sm)) i (mk_World s lg pr ck []) =
  (Ret tt,
   if has_message i s
   then mk_World
          (mk_Store (masks s) (dialogues s)
                    (filter (fun m => negb (Message.id m =? i)) (messages s)))
          lg pr ck []
   else mk_World s lg
          (pr ++ ["Message with id " ++ PyStr.of_int i ++ " not found"])
          ck []).
Proof.
  intro R. unfold delete_message_body, open_session. cbn [DB_session].
  unfold bind at 1. unfold ret at 1. unfold bind at 1.
  rewrite (get_run _ i s lg pr ck R).
  destruct (has_message i s) eqn:H.
  - destruct (found_message i s) as [m|] eqn:E;
      [| apply found_message_none in E; congruence].
    unfold found_message in E. rewrite E. reflexivity.
  - apply found_message_none in H. unfold found_message in H.
    rewrite H. reflexivity.
Qed.

Lemma has_message_after_delete i l :
  existsb (fun m => Message.id m =? i)
          (filter (fun m => negb (Message.id m =? i)) l) = false.
Proof.
  induction l as [|m l IH]; simpl; [reflexivity |].
  destruct (Message.id m =? i) eqn:E; simpl; [exact IH |].
  rewrite E. exact IH.
Qed.

(** X5.  [delete_message] with an id that fits the 64-bit INTEGER of the
    table returns normally.  With a stored id it removes the rows of that
    id and keeps every other message, in order, and both other tables; no
    message has the id afterwards, so a second call only prints that the
    message was not found.  With an id that is not stored it writes nothing
    and prints the same line. *)
Theorem delete_message_removes_only_that_id :
  forall self w i,
    initialised self -> fault_free w -> sqlite_integer i = true ->
    let w' := snd (delete_message self i w) in
    fst (delete_message self i w) = Ret tt /\
    has_message i (db w') = false /\
    masks (db w') = masks (db w) /\
    dialogues (db w') = dialogues (db w) /\
    messages (db w') =
      filter (fun m => negb (Message.id m =? i)) (messages (db w)) /\
    (has_message i (db w) = true -> printed w' = printed w) /\
    (has_message i (db w) = false ->
       w' = mk_World (db w) (logged w)
              (printed w ++
                 ["Message with id " ++ PyStr.of_int i ++ " not found"])
              (clock w) (faults w)) /\
    delete_message self i w' =
      (Ret tt,
       mk_World (db w') (logged w')
                (printed w' ++
                   ["Message with id " ++ PyStr.of_int i ++ " not found"])
                (clock w') (faults w')).
Proof.
  intros [cls [sm|]] [s lg pr ck fl] i Hi Hf R;
    [| exfalso; apply Hi; reflexivity].
  unfold fault_free in Hf. simpl in Hf. subst fl.
  cbv zeta. unfold delete_message, try_except.
  rewrite (delete_message_body_run sm cls s lg pr ck i R).
  destruct (has_message i s) eqn:H;
    cbn [fst snd db masks dialogues messages logged printed clock faults].
  - repeat split; try reflexivity; try (intro; congruence).
    + apply has_message_after_delete.
    + rewrite (delete_message_body_run _ _ _ _ _ _ _ R).
      unfold has_message. cbn [messages].
      rewrite has_message_after_delete. reflexivity.
  - repeat split; try reflexivity; try (intro; congruence); try exact H.
    + symmetry. apply forallb_filter_id. apply forallb_forall.
      intros m Hm. apply negb_true_iff.
      destruct (Message.id m =? i) eqn:E; [| reflexivity].
      assert (has_message i s = true)
        by (apply existsb_exists; exists m; split; assumption).
      congruence.
    + rewrite (delete_message_body_run _ _ _ _ _ _ _ R), H. reflexivity.
Qed.

Lemma delete_message_removes_only_that_id_witness :
  messages (db (snd (delete_message sample_self 2 two_masks_world))) =
    [Message.mk 1 USER noon TEXT "hello" true (Some "D1");
     Message.mk 3 USER later IMAGE "cat.png" false None] /\
  printed (snd (delete_message sample_self 7 two_masks_world)) =
    ["Message with id 7 not found"].
Proof.
  pose proof (delete_message_removes_only_that_id
                sample_self two_masks_world 2
                ltac:(discriminate) ltac:(reflexivity) ltac:(reflexivity))
    as H2.
  pose proof (delete_message_removes_only_that_id
                sample_self two_masks_world 7
                ltac:(discriminate) ltac:(reflexivity) ltac:(reflexivity))
    as H7.
  split.
  - exact (proj1 (proj2 (proj2 (proj2 (proj2 H2))))).
  - rewrite (proj1 (proj2 (proj2 (proj2 (proj2 (proj2 (proj2 H7)))))) eq_refl).
    reflexivity.
Defined.

(** X6.  [add_message] to a dialogue that exists appends one row linked to
    that dialogue, with the fields given and an id that no stored message
    has; it prints and logs nothing and keeps every stored row. *)
Theorem add_message_to_dialogue :
  forall self w D sd ty info ok t,
    initialised self -> fault_free w -> has_dialogue D (db w) = true ->
    add_message self D sd ty info ok (Some t) w =
      (Ret tt,
       mk_World
         (mk_Store (masks (db w)) (dialogues (db w))
            (messages (db w) ++
               [Message.mk (next_rowid (map Message.id (messages (db w))))
                           sd t ty info ok (Some D)]))
         (logged w) (printed w) (clock w) (faults w)) /\
    ~ In (next_rowid (map Message.id (messages (db w))))
         (map Message.id (messages (db w))).
Proof.
  intros [cls [sm|]] [s lg pr ck fl] D sd ty info ok t Hi Hf Hd;
    [| exfalso; apply Hi; reflexivity].
  unfold fault_free in Hf. simpl in Hf, Hd. subst fl.
  destruct (has_dialogue_found _ _ Hd) as [d E].
  destruct (found_dialogue_some _ _ _ E) as [_ N].
  split.
  - unfold add_message, try_except. rewrite add_message_body_run, E.
    cbn [option_map truth]. rewrite N. reflexivity.
  - cbn [db messages]. intro Hin.
    pose proof (next_rowid_above (map Message.id (messages s))) as F.
    rewrite Forall_forall in F. specialize (F _ Hin). lia.
Qed.

Lemma add_message_to_dialogue_witness :
  messages (db (snd (add_message sample_self "D1" GPT AUDIO "a.wav" true
                                 (Some evening) two_masks_world))) =
  (messages (db two_masks_world) ++
     [Message.mk 4 GPT evening AUDIO "a.wav" true (Some "D1")])%list.
Proof.
  pose proof (add_message_to_dialogue
                sample_self two_masks_world "D1" GPT AUDIO "a.wav" true evening
                ltac:(discriminate) ltac:(reflexivity) ltac:(reflexivity))
    as [H _].
  rewrite H. reflexivity.
Defined.

(** X7.  A message added under the name of a dialogue that does not exist
    is stored without a dialogue, so [get_messages] returns for every name
    what it returned before: the message cannot be read back. *)
Theorem orphan_message_is_never_returned :
  forall self w D D' sd ty info ok t,
    initialised self -> fault_free w -> has_dialogue D (db w) = false ->
    fst (get_messages self D'
           (snd (add_message self D sd ty info ok (Some t) w))) =
    fst (get_messages self D' w) /\
    List.length (messages (db (snd (add_message self D sd ty info ok
                                                (Some t) w)))) =
    S (List.length (messages (db w))).
Proof.
  intros [cls [sm|]] [s lg pr ck fl] D D' sd ty info ok t Hi Hf Hd;
    [| exfalso; apply Hi; reflexivity].
  unfold fault_free in Hf. simpl in Hf, Hd. subst fl.
  apply found_dialogue_none in Hd.
  unfold add_message, try_except. rewrite add_message_body_run, Hd.
  cbn [snd option_map truth db masks dialogues messages].
  split.
  - unfold get_messages, try_except. rewrite !get_messages_body_run.
    cbn [fst]. unfold has_dialogue. cbn [dialogues].
    rewrite messages_of_snoc. unfold in_dialogue. cbn [Message.dialogue_name].
    rewrite app_nil_r. reflexivity.
  - rewrite length_app. simpl. lia.
Qed.

Lemma orphan_message_is_never_returned_witness :
  fst (get_messages sample_self "D1"
         (snd (add_message sample_self "D9" USER TEXT "lost" true (Some noon)
                           two_masks_world))) =
  fst (get_messages sample_self "D1" two_masks_world).
Proof.
  apply (orphan_message_is_never_returned
           sample_self two_masks_world "D9" "D1" USER TEXT "lost" true noon).
  - discriminate.
  - reflexivity.
  - reflexivity.
Defined.

Lemma has_message_after_update i info l :
  existsb (fun m => Message.id m =? i)
          (map (fun m => if Message.id m =? i then set_send_info info m else m)
               l)
  = existsb (fun m => Message.id m =? i) l.
Proof.
  induction l as [|m l IH]; simpl; [reflexivity |].
  rewrite IH. destruct (Message.id m =? i) eqn:E; simpl; rewrite E;
    reflexivity.
Qed.

Lemma update_message_overflow sm cls s lg pr ck i info :
  sqlite_integer i = false ->
  update_message (mk_ChatSql cls (Some sm)) i info (mk_World s lg pr ck []) =
  (Ret tt,
   mk_World s
     (lg ++ ["Python int too large to convert to SQLite INTEGER"]) pr ck []).
Proof.
  intro R. unfold update_message, try_except, update_message_body,
    open_session. cbn [DB_session].
  unfold bind at 1. unfold ret at 1. unfold bind at 1.
  rewrite (get_overflow _ i s lg pr ck R). reflexivity.
Qed.

Lemma delete_message_overflow sm cls s lg pr ck i :
  sqlite_integer i = false ->
  delete_message (mk_ChatSql cls (Some sm)) i (mk_World s lg pr ck []) =
  (Ret tt,
   mk_World s
     (lg ++ ["Python int too large to convert to SQLite INTEGER"]) pr ck []).
Proof.
  intro R. unfold delete_message, try_except, delete_message_body,
    open_session. cbn [DB_session].
  unfold bind at 1. unfold ret at 1. unfold bind at 1.
  rewrite (get_overflow _ i s lg pr ck R). reflexivity.
Qed.

(** X8.  Two updates of the same message leave the file as the second one
    alone would: the later text wins and nothing of the earlier one stays. *)
Theorem update_message_last_write_wins :
  forall self w i a b,
    initialised self -> fault_free w ->
    db (snd (update_message self i b (snd (update_message self i a w)))) =
    db (snd (update_message self i b w)).
Proof.
  intros [cls [sm|]] [s lg pr ck fl] i a b Hi Hf;
    [| exfalso; apply Hi; reflexivity].
  unfold fault_free in Hf. simpl in Hf. subst fl.
  destruct (sqlite_integer i) eqn:R.
  - unfold update_message, try_except.
    rewrite !(update_message_body_run sm cls s lg pr ck i _ R).
    destruct (has_message i s) eqn:H; cbn [snd].
    + rewrite (update_message_body_run _ _ _ _ _ _ _ _ R).
      unfold has_message. cbn [messages].
      rewrite has_message_after_update. unfold has_message in H. rewrite H.
      cbn [snd db masks dialogues messages]. f_equal.
      rewrite map_map. apply map_ext. intro m.
      destruct (Message.id m =? i) eqn:E; simpl; rewrite E; reflexivity.
    + rewrite (update_message_body_run _ _ _ _ _ _ _ _ R), H. reflexivity.
  - rewrite (update_message_overflow sm cls s lg pr ck i a R). cbn [snd].
    rewrite !(update_message_overflow sm cls s _ pr ck i b R). reflexivity.
Qed.

Lemma update_message_last_write_wins_witness :
  map Message.send_info
      (messages (db (snd (update_message sample_self 1 "second"
                            (snd (update_message sample_self 1 "first"
                                                 two_masks_world)))))) =
  ["second"; "hi"; "cat.png"].
Proof.
  rewrite (update_message_last_write_wins
             sample_self two_masks_world 1 "first" "second"
             ltac:(discriminate) ltac:(reflexivity)).
  reflexivity.
Defined.

(** X20.  An id that does not fit the 64-bit INTEGER of the table cannot
    be bound to the query: [update_message] and [delete_message] then log
    the driver's [OverflowError], print nothing, not even that the message
    was not found, and write nothing. *)
Theorem message_id_out_of_range :
  forall self w i info,
    initialised self -> fault_free w -> sqlite_integer i = false ->
    let refused :=
      mk_World (db w)
        (logged w ++ ["Python int too large to convert to SQLite INTEGER"])
        (printed w) (clock w) (faults w) in
    update_message self i info w = (Ret tt, refused) /\
    delete_message self i w = (Ret tt, refused).
Proof.
  intros [cls [sm|]] [s lg pr ck fl] i info Hi Hf R;
    [| exfalso; apply Hi; reflexivity].
  unfold fault_free in Hf. simpl in Hf. subst fl. cbv zeta.
  cbn [db logged printed clock faults]. split.
  - apply update_message_overflow. exact R.
  - apply delete_message_overflow. exact R.
Qed.

Lemma message_id_out_of_range_witness :
  update_message sample_self (2 ^ 63) "x" two_masks_world =
  (Ret tt,
   mk_World (db two_masks_world)
            ["Python int too large to convert to SQLite INTEGER"]
            [] evening []) /\
  sqlite_integer (2 ^ 63 - 1) = true /\ sqlite_integer (- 2 ^ 63) = true.
Proof.
  split; [| split; reflexivity].
  apply (message_id_out_of_range sample_self two_masks_world (2 ^ 63) "x").
  - discriminate.
  - reflexivity.
  - reflexivity.
Defined.

(** ** What the methods never do *)

Lemma readonly_builtin_format self spec : readonly (format self spec).
Proof.
  unfold format. apply readonly_bind; [apply readonly_format |].
  intros [s|]; [apply readonly_ret | apply readonly_raise].
Qed.

(** X9.  The look-ups and the formatter never write: whatever the object,
    the arguments and the storage do, the file after [get_mask],
    [get_dialogue], [get_messages], [__format__] or the built-in [format] is
    the file before. *)
Theorem lookups_never_write :
  forall self w,
    (forall name, db (snd (get_mask self name w)) = db w) /\
    (forall name, db (snd (get_dialogue self name w)) = db w) /\
    (forall name, db (snd (get_messages self name w)) = db w) /\
    (forall spec, db (snd (__format__ self spec w)) = db w) /\
    (forall spec, db (snd (format self spec w)) = db w).
Proof.
  intros self w. repeat split; intro x.
  - apply readonly_get_mask.
  - apply readonly_get_dialogue.
  - apply readonly_get_messages.
  - apply readonly_format.
  - apply readonly_builtin_format.
Qed.

Section KeepsDialogues.

Lemma keeps_of_readonly {A} (c : M A) : readonly c -> keeps_dialogues c.
Proof. intros H w. rewrite H. reflexivity. Qed.

Lemma keeps_bind {A B} (c : M A) (k : A -> M B) (P : A -> Prop) :
  keeps_dialogues c ->
  (forall w a w', c w = (Ret a, w') -> P a) ->
  (forall a, P a -> keeps_dialogues (k a)) ->
  keeps_dialogues (bind c k).
Proof.
  intros Hc HP Hk w. unfold bind. specialize (Hc w).
  destruct (c w) as [[a|e] w1] eqn:E; simpl in *.
  - rewrite (Hk a (HP w a w1 E)). exact Hc.
  - exact Hc.
Qed.

Lemma keeps_try {A} (body : M A) (handler : exn -> M A) :
  keeps_dialogues body -> (forall e, keeps_dialogues (handler e)) ->
  keeps_dialogues (try_except body handler).
Proof.
  intros Hb Hh w. unfold try_except. specialize (Hb w).
  destruct (body w) as [[a|e] w1]; simpl in *.
  - exact Hb.
  - rewrite Hh. exact Hb.
Qed.

Lemma keeps_commit_one p :
  writes_dialogue p = false -> keeps_dialogues (commit (session_add p [])).
Proof.
  intros Hp w. unfold commit, bind.
  pose proof (readonly_storage_access w) as R.
  destruct (storage_access w) as [[[]|e] w1]; simpl in *; [| rewrite R; auto].
  destruct (apply p (db w1)) as [e|s'] eqn:E; simpl; [rewrite R; auto |].
  rewrite <- R.
  destruct p; try discriminate Hp; simpl in E;
    try (injection E as <-; reflexivity).
  destruct (existsb _ _); [discriminate E | injection E as <-; reflexivity].
Qed.

Lemma open_session_empty self w session w' :
  open_session self w = (Ret session, w') -> session = [].
Proof.
  unfold open_session. destruct (DB_session self); intro H;
    [injection H as <- _; reflexivity | discriminate H].
Qed.

(** A method body of the shape: open a session, read, then either commit
    one change that is not a dialogue or do something that writes nothing. *)
Ltac keeps_after_open :=
  eapply keeps_bind;
    [ apply keeps_of_readonly, readonly_open_session
    | apply open_session_empty
    | intros session ->; cbv beta ].

Ltac keeps_read :=
  eapply (keeps_bind _ _ (fun _ => True));
    [ apply keeps_of_readonly; auto with chat
    | intros; exact I
    | intros ? _; cbv beta ].

Lemma keeps_add_mask self n d : keeps_dialogues (add_mask self n d).
Proof.
  apply keeps_try; [| intro; apply keeps_of_readonly; auto with chat].
  unfold add_mask_body. keeps_after_open.
  apply keeps_commit_one. reflexivity.
Qed.

Lemma keeps_init cls : keeps_dialogues (__init__ cls).
Proof.
  apply keeps_try.
  - unfold __init___body, create_all. keeps_read.
    eapply (keeps_bind _ _ (fun _ => True));
      [apply keeps_add_mask | intros; exact I | intros ? _].
    apply keeps_of_readonly. auto with chat.
  - intro e. apply keeps_of_readonly.
    apply readonly_bind; [auto with chat | intro; auto with chat].
Qed.

Lemma keeps_add_message self n sd ty info ok t :
  keeps_dialogues (add_message self n sd ty info ok t).
Proof.
  unfold add_message.
  apply keeps_try; [| intro; apply keeps_of_readonly; auto with chat].
  unfold add_message_body. keeps_after_open. keeps_read. keeps_read.
  apply keeps_commit_one. reflexivity.
Qed.

Lemma keeps_update_message self i s :
  keeps_dialogues (update_message self i s).
Proof.
  apply keeps_try; [| intro; apply keeps_of_readonly; auto with chat].
  unfold update_message_body. keeps_after_open. keeps_read.
  match goal with |- context [truth ?m] => destruct (truth m) end.
  - apply keeps_commit_one. reflexivity.
  - apply keeps_of_readonly. auto with chat.
Qed.

Lemma keeps_delete_message self i : keeps_dialogues (delete_message self i).
Proof.
  apply keeps_try; [| intro; apply keeps_of_readonly; auto with chat].
  unfold delete_message_body. keeps_after_open. keeps_read.
  match goal with |- context [truth ?m] => destruct (truth m) end.
  - apply keeps_commit_one. reflexivity.
  - apply keeps_of_readonly. auto with chat.
Qed.

Lemma keeps_delete_mask self n : keeps_dialogues (delete_mask self n).
Proof.
  apply keeps_try; [| intro; apply keeps_of_readonly; auto with chat].
  unfold delete_mask_body. keeps_after_open. keeps_read.
  match goal with |- keeps_dialogues (match ?m with _ => _ end) =>
    destruct m end.
  - apply keeps_commit_one. reflexivity.
  - apply keeps_of_readonly. auto with chat.
Qed.

Lemma keeps_fmap {A B} (f : A -> B) (c : M A) :
  keeps_dialogues c -> keeps_dialogues (fmap f c).
Proof.
  intro H. unfold fmap.
  eapply (keeps_bind _ _ (fun _ => True)); [exact H | intros; exact I |].
  intros a _. apply keeps_of_readonly, readonly_ret.
Qed.

Lemma keeps_call self op : keeps_dialogues (call self op).
Proof.
  destruct op; simpl; apply keeps_fmap;
    auto using keeps_init, keeps_add_mask, keeps_delete_mask,
      keeps_add_message, keeps_update_message, keeps_delete_message,
      keeps_of_readonly with chat.
Qed.

End KeepsDialogues.

(** X10.  No sequence of calls ever changes the dialogue table, whatever
    the arguments and the storage do: [create_dialogue] is the only method
    that would insert a dialogue and it returns before doing so, and no
    method deletes or updates one. *)
Theorem dialogue_table_never_changes :
  forall ops self w,
    dialogues (db (snd (run ops (self, w)))) = dialogues (db w).
Proof.
  unfold run. induction ops as [|op ops IH]; intros self w; [reflexivity |].
  simpl. unfold step at 2. cbn [fst snd].
  pose proof (keeps_call self op w) as K.
  destruct (call self op w) as [[v|e] w']; simpl in K;
    [destruct v |]; rewrite IH; exact K.
Qed.

(** ** The constructor and the storage *)

(** X11.  When the storage fails while the tables are created, the
    constructor logs the failure and returns an object without session
    factory, and no default mask is inserted.  When the tables are created
    and the storage fails while the default mask is committed, the object
    gets its session factory, the failure is logged, and again no mask is
    inserted. *)
Theorem constructor_under_storage_failure :
  forall cls w text rest,
    (faults w = Some text :: rest ->
       __init__ cls w =
       (Ret (mk_ChatSql cls None),
        mk_World (db w) (logged w ++ [text]) (printed w) (clock w) rest)) /\
    (faults w = None :: Some text :: rest ->
       __init__ cls w =
       (Ret (mk_ChatSql cls (Some (sessionmaker_bind "sqlite:///chat.db"))),
        mk_World (db w) (logged w ++ [text]) (printed w) (clock w) rest)).
Proof.
  intros cls [s lg pr ck fl] text rest. simpl.
  split; intros ->; reflexivity.
Qed.

Lemma constructor_under_storage_failure_witness :
  __init__ sample_class
           (set_faults [Some "unable to open database file"] fresh_world) =
  (Ret (mk_ChatSql sample_class None),
   mk_World empty_Store ["unable to open database file"] [] noon []) /\
  __init__ sample_class
           (set_faults [None; Some "database is locked"] fresh_world) =
  (Ret sample_self,
   mk_World empty_Store ["database is locked"] [] noon []).
Proof.
  split.
  - apply (proj1 (constructor_under_storage_failure
                    sample_class
                    (set_faults [Some "unable to open database file"]
                                fresh_world)
                    "unable to open database file" [])).
    reflexivity.
  - apply (proj2 (constructor_under_storage_failure
                    sample_class
                    (set_faults [None; Some "database is locked"] fresh_world)
                    "database is locked" [])).
    reflexivity.
Defined.

(** X12.  On an object whose constructor failed, every method other than
    the constructor reads the unbound [DB_session], so it reaches neither
    the file nor the storage: it logs the [AttributeError], returns [None]
    ([__format__] returns the text of the error), and [create_dialogue]
    also prints the text. *)
Theorem calls_without_session :
  forall cls op w,
    op <> Op_init ->
    call (mk_ChatSql cls None) op w =
    (Ret (failure_result (mk_ChatSql cls None) op
                         (AttributeError no_session_text)),
     mk_World (db w) (logged w ++ [no_session_text])
              (printed w ++ printed_on_failure op no_session_text)
              (clock w) (faults w)).
Proof.
  intros cls op [s lg pr ck fl] H.
  destruct op; try (exfalso; apply H; reflexivity);
    cbn [printed_on_failure printed]; rewrite ?app_nil_r; reflexivity.
Qed.

Lemma calls_without_session_witness :
  call (mk_ChatSql sample_class None) (Op_add_mask "Mask1" "")
       (set_faults [Some "never reached"] fresh_world) =
  (Ret VNone,
   mk_World empty_Store [no_session_text] [] noon [Some "never reached"]).
Proof.
  apply (calls_without_session sample_class (Op_add_mask "Mask1" "")
           (set_faults [Some "never reached"] fresh_world)).
  discriminate.
Defined.

(** X13.  From a file whose row ids increase along each table and whose
    name columns hold no duplicates, every sequence of calls, whatever the
    storage does, leads to a file with the same properties: message ids
    and mask ids stay distinct and in table order, dialogue names stay
    distinct. *)
Theorem identifiers_stay_distinct :
  forall ops self w,
    store_ok (db w) ->
    let s' := db (snd (run ops (self, w))) in
    increasing (map Message.id (messages s')) /\
    NoDup (map Message.id (messages s')) /\
    increasing (map Mask.mask_id (masks s')) /\
    NoDup (map Mask.mask_id (masks s')) /\
    NoDup (map Dialogue.dialogue_name (dialogues s')).
Proof.
  intros ops self w H. cbv zeta.
  pose proof (store_ok_run ops (self, w) H) as [H1 H2 H3 H4].
  repeat split; try assumption; apply increasing_NoDup; assumption.
Qed.

Lemma identifiers_stay_distinct_witness :
  NoDup (map Message.id
             (messages (db (snd (run [Op_delete_message 2;
                                      Op_add_message "D1" USER TEXT "x" true
                                                     None;
                                      Op_add_message "D1" USER TEXT "y" true
                                                     None]
                                     (sample_self, two_masks_world)))))).
Proof.
  apply (identifiers_stay_distinct
           [Op_delete_message 2;
            Op_add_message "D1" USER TEXT "x" true None;
            Op_add_message "D1" USER TEXT "y" true None]
           sample_self two_masks_world ltac:(closed_store)).
Defined.

(** ** The formatter on other requests *)

Lemma digits_value c s :
  digits_only (String c s) = true ->
  PyStr.digits (String c s) =
  option_map Z.of_uint (NilZero.uint_of_string (String c s)).
Proof.
  intro H. simpl in H. apply andb_true_iff in H. destruct H as [Hc Hs].
  unfold PyStr.digits. rewrite Hc. cbn [PyStr.ungroup].
  destruct (digit_char c Hc) as (_ & E & _).
  rewrite E, Hc, (digits_ungroup _ Hs). reflexivity.
Qed.

Lemma of_int_negative p :
  exists c s,
    PyStr.of_int (Z.neg p) = String "-" (String c s) /\
    digits_only (String c s) = true /\
    NilZero.uint_of_string (String c s) = Some (Pos.to_uint p).
Proof.
  pose proof (DecimalPos.Unsigned.to_uint_nonnil p) as N.
  pose proof (uint_digits (Pos.to_uint p)) as G.
  pose proof (NilEmpty.usu (Pos.to_uint p)) as U.
  assert (E : PyStr.of_int (Z.neg p) =
              String "-" (NilEmpty.string_of_uint (Pos.to_uint p))).
  { unfold PyStr.of_int. simpl. destruct (Pos.to_uint p);
      [contradiction | reflexivity ..]. }
  destruct (NilEmpty.string_of_uint (Pos.to_uint p)) as [|c s] eqn:S.
  - destruct (Pos.to_uint p); discriminate S || contradiction.
  - exists c, s. repeat split; assumption.
Qed.

Lemma to_int_of_int_any z : PyStr.to_int (PyStr.of_int z) = Some z.
Proof.
  destruct z as [|p|p]; [reflexivity | apply to_int_of_int; lia |].
  destruct (of_int_negative p) as (c & s & E & G & U). rewrite E.
  unfold PyStr.to_int, PyStr.transform.
  replace (PyStr.only_ascii (String "-" (String c s))) with true
    by (symmetry; apply (digits_only_ascii _ G)).
  unfold PyStr.ascii_to_int, PyStr.strip.
  change (PyStr.lstrip (String "-" (String c s)))
    with (String "-" (String c s)).
  assert (R : PyStr.rstrip (String "-" (String c s)) =
              String "-" (String c s)).
  { change (PyStr.rstrip (String "-" (String c s)))
      with (match PyStr.rstrip (String c s) with
            | EmptyString => String "-" EmptyString
            | String a r => String "-" (String a r)
            end).
    rewrite (digits_rstrip _ G). reflexivity. }
  rewrite R. cbv iota beta.
  change (option_map Z.opp (PyStr.digits (String c s)) = Some (Z.neg p)).
  rewrite (digits_value _ _ G), U. simpl.
  unfold Z.of_uint. rewrite DecimalPos.Unsigned.of_to. reflexivity.
Qed.

Lemma of_int_no_space z : PyStr.has_char PyStr.space (PyStr.of_int z) = false.
Proof.
  destruct z as [|p|p]; [reflexivity | apply digits_no_space, of_int_digits; lia |].
  destruct (of_int_negative p) as (c & s & E & G & _). rewrite E.
  change (PyStr.has_char PyStr.space (String c s) = false).
  apply digits_no_space. exact G.
Qed.

Lemma split_messages_request_int D z :
  PyStr.has_char PyStr.space D = false ->
  PyStr.split PyStr.space (messages_request_int D z) =
  ["messages"; D; PyStr.of_int z].
Proof.
  intro H. unfold messages_request_int.
  change ("messages " ++ D ++ " " ++ PyStr.of_int z)
    with ("messages" ++ String PyStr.space
            (D ++ String PyStr.space (PyStr.of_int z))).
  rewrite split_at_separator by reflexivity.
  rewrite split_at_separator by exact H.
  rewrite split_without_separator; [reflexivity | apply of_int_no_space].
Qed.

(** The ["messages"] branch once the request is cut into fields. *)
Lemma format_fields_run sm cls s lg pr ck spec token count name :
  PyStr.contains "messages" spec = true ->
  (Z.of_nat (List.length (PyStr.split PyStr.space spec)) <? 2) = false ->
  index (-1) (PyStr.split PyStr.space spec) = Some token ->
  PyStr.to_int token = Some count ->
  index 1 (PyStr.split PyStr.space spec) = Some name ->
  __format___body (mk_ChatSql cls (Some sm)) spec (mk_World s lg pr ck []) =
  (Ret (Some (if has_dialogue name s
              then shown_lines (slice_to count
                                  (sorted_reverse Message.id
                                                  (messages_of name s)))
              else not_found_line name)),
   mk_World s lg pr ck []).
Proof.
  intros C L T V N.
  destruct (contains_messages_not_keyword _ C) as [E1 E2].
  unfold __format___body. unfold bind at 1. unfold open_session.
  cbn [DB_session]. unfold ret at 1. rewrite E1, E2, C, L.
  assert (L2 : (2 <=? Z.of_nat (List.length (PyStr.split PyStr.space spec)))
               = true) by (apply Z.leb_le; apply Z.ltb_ge in L; lia).
  rewrite L2. unfold item. rewrite T, N.
  unfold bind at 1. unfold bind at 1. unfold ret at 1.
  unfold int. rewrite V.
  unfold bind, ret, first, bind, storage_access. cbn [faults db].
  destruct (has_dialogue name s) eqn:H.
  - destruct (has_dialogue_found _ _ H) as [d E].
    destruct (found_dialogue_some _ _ _ E) as [_ Nd].
    unfold found_dialogue in E. rewrite E.
    unfold Dialogue_messages, all, bind, storage_access. cbn [faults db].
    rewrite Nd. reflexivity.
  - apply found_dialogue_none in H. unfold found_dialogue in H.
    rewrite H. reflexivity.
Qed.

Lemma format_request_int_run sm cls s lg pr ck D z :
  PyStr.has_char PyStr.space D = false ->
  __format__ (mk_ChatSql cls (Some sm)) (messages_request_int D z)
             (mk_World s lg pr ck []) =
  (Ret (Some (if has_dialogue D s
              then shown_lines (slice_to z (sorted_reverse Message.id
                                              (messages_of D s)))
              else not_found_line D)),
   mk_World s lg pr ck []).
Proof.
  intro HD. unfold __format__, try_except.
  rewrite (format_fields_run sm cls s lg pr ck (messages_request_int D z)
             (PyStr.of_int z) z D); try reflexivity.
  - rewrite (split_messages_request_int D z HD). reflexivity.
  - rewrite (split_messages_request_int D z HD). reflexivity.
  - apply to_int_of_int_any.
  - rewrite (split_messages_request_int D z HD). reflexivity.
Qed.

(** Settles [within_digit_cap] for a literal number. *)
Ltac within_cap := unfold PyStr.within_digit_cap; vm_compute; reflexivity.

(** X14.  A ["messages"] request for a name, without a space, that no
    dialogue has is answered with the one line saying so, whatever the
    count within the interpreter's cap on digits; nothing is written or
    logged. *)
Theorem format_messages_unknown_dialogue :
  forall self w D count,
    initialised self -> fault_free w ->
    PyStr.within_digit_cap count ->
    PyStr.has_char PyStr.space D = false ->
    has_dialogue D (db w) = false ->
    __format__ self (messages_request_int D count) w =
    (Ret (Some (not_found_line D)), w).
Proof.
  intros [cls [sm|]] [s lg pr ck fl] D z Hi Hf _ HD H;
    [| exfalso; apply Hi; reflexivity].
  unfold fault_free in Hf. simpl in Hf, H. subst fl.
  rewrite (format_request_int_run sm cls s lg pr ck D z HD), H. reflexivity.
Qed.

Lemma format_messages_unknown_dialogue_witness :
  __format__ sample_self "messages Dialogue1 6" started_world =
  (Ret (Some "未找到 Dialogue1 这个对话"), started_world).
Proof.
  apply (format_messages_unknown_dialogue sample_self started_world
           "Dialogue1" 6);
    [discriminate | reflexivity | within_cap | reflexivity | reflexivity].
Defined.

Section NewestFirst.
Context {A : Type} (key : A -> Z).

Lemma insert_reverse_smallest x l :
  Forall (fun y => key x < key y) l -> insert_reverse key x l = (l ++ [x])%list.
Proof.
  induction 1 as [|y l Hy Hl IH]; simpl; [reflexivity |].
  replace (key y <=? key x) with false by (symmetry; apply Z.leb_gt; lia).
  rewrite IH. reflexivity.
Qed.

Lemma sorted_reverse_of_increasing l :
  increasing (map key l) -> sorted_reverse key l = rev l.
Proof.
  induction l as [|x l IH]; simpl; intro H; [reflexivity |].
  inversion H as [|? ? Hs Hf]; subst. rewrite (IH Hs).
  apply insert_reverse_smallest.
  rewrite Forall_forall in *. intros y Hy. apply Hf.
  apply in_map. apply in_rev. exact Hy.
Qed.

End NewestFirst.

Lemma messages_of_increasing name s :
  store_ok s -> increasing (map Message.id (messages_of name s)).
Proof.
  intro H. unfold messages_of. apply sorted_map_filter.
  apply (ok_message_ids _ H).
Qed.

(** X15.  When the count asked for is at least the number of messages of
    the dialogue, and within the interpreter's cap on digits, the formatter
    shows all of them, the newest first: the lines are those of the
    dialogue's messages in the reverse of their insertion order. *)
Theorem format_messages_count_beyond :
  forall self w D k,
    initialised self -> fault_free w -> store_ok (db w) ->
    PyStr.within_digit_cap (Z.of_nat k) ->
    PyStr.has_char PyStr.space D = false ->
    has_dialogue D (db w) = true ->
    (List.length (messages_of D (db w)) <= k)%nat ->
    __format__ self (messages_request D k) w =
    (Ret (Some (shown_lines (rev (messages_of D (db w))))), w).
Proof.
  intros [cls [sm|]] [s lg pr ck fl] D k Hi Hf Hok _ HD H K;
    [| exfalso; apply Hi; reflexivity].
  unfold fault_free in Hf. simpl in Hf, Hok, H, K |- *. subst fl.
  change (messages_request D k) with (messages_request_int D (Z.of_nat k)).
  rewrite (format_request_int_run sm cls s lg pr ck D _ HD), H.
  rewrite (sorted_reverse_of_increasing _ _ (messages_of_increasing D s Hok)).
  unfold slice_to.
  replace (0 <=? Z.of_nat k) with true by (symmetry; apply Z.leb_le; lia).
  rewrite Nat2Z.id, firstn_all2 by (rewrite length_rev; exact K).
  reflexivity.
Qed.

Lemma format_messages_count_beyond_witness :
  __format__ sample_self "messages D1 10" two_masks_world =
  (Ret (Some (shown_lines
                [Message.mk 2 GPT later TEXT "hi" true (Some "D1");
                 Message.mk 1 USER noon TEXT "hello" true (Some "D1")])),
   two_masks_world).
Proof.
  apply (format_messages_count_beyond sample_self two_masks_world "D1" 10).
  - discriminate.
  - reflexivity.
  - closed_store.
  - within_cap.
  - reflexivity.
  - reflexivity.
  - simpl. lia.
Defined.

(** X16.  A negative count [-n], within the interpreter's cap on digits,
    is a slice bound counted from the end: the formatter then leaves out
    the [n] oldest messages of the dialogue and shows the others, the
    newest first; it shows nothing when the dialogue has no more than [n]
    messages. *)
Theorem format_messages_negative_count :
  forall self w D n,
    initialised self -> fault_free w -> store_ok (db w) ->
    PyStr.within_digit_cap (- Z.of_nat n) ->
    PyStr.has_char PyStr.space D = false ->
    has_dialogue D (db w) = true ->
    (0 < n)%nat ->
    __format__ self (messages_request_int D (- Z.of_nat n)) w =
    (Ret (Some (shown_lines (rev (skipn n (messages_of D (db w)))))), w).
Proof.
  intros [cls [sm|]] [s lg pr ck fl] D n Hi Hf Hok _ HD H Hn;
    [| exfalso; apply Hi; reflexivity].
  unfold fault_free in Hf. simpl in Hf, Hok, H |- *. subst fl.
  rewrite (format_request_int_run sm cls s lg pr ck D _ HD), H.
  rewrite (sorted_reverse_of_increasing _ _ (messages_of_increasing D s Hok)).
  unfold slice_to.
  replace (0 <=? - Z.of_nat n) with false by (symmetry; apply Z.leb_gt; lia).
  rewrite length_rev.
  set (l := messages_of D s).
  replace (Z.to_nat (Z.of_nat (List.length l) + - Z.of_nat n))
    with (List.length l - n)%nat by lia.
  rewrite firstn_rev.
  destruct (Nat.le_gt_cases n (List.length l)) as [Le | Gt].
  - replace (List.length l - (List.length l - n))%nat with n by lia.
    reflexivity.
  - replace (List.length l - (List.length l - n))%nat with (List.length l)
      by lia.
    rewrite !skipn_all2 by lia. reflexivity.
Qed.

Lemma format_messages_negative_count_witness :
  __format__ sample_self "messages D1 -1" two_masks_world =
  (Ret (Some (shown_lines
                [Message.mk 2 GPT later TEXT "hi" true (Some "D1")])),
   two_masks_world).
Proof.
  apply (format_messages_negative_count sample_self two_masks_world "D1" 1).
  - discriminate.
  - reflexivity.
  - closed_store.
  - within_cap.
  - reflexivity.
  - reflexivity.
  - lia.
Defined.

(** X17.  A request with a single field after ["messages"], a number
    within the interpreter's cap on digits, uses that field twice, as the
    count and as the dialogue name: ["messages 5"] shows the five newest
    messages of the dialogue named ["5"], or says that the dialogue ["5"]
    was not found. *)
Theorem format_messages_single_field :
  forall self w n,
    initialised self -> fault_free w ->
    PyStr.within_digit_cap (Z.of_nat n) ->
    let name := PyStr.of_int (Z.of_nat n) in
    __format__ self ("messages " ++ name) w =
    (Ret (Some (if has_dialogue name (db w)
                then shown_lines (firstn n (sorted_reverse Message.id
                                              (messages_of name (db w))))
                else not_found_line name)),
     w).
Proof.
  intros [cls [sm|]] [s lg pr ck fl] n Hi Hf _ name;
    [| exfalso; apply Hi; reflexivity].
  unfold fault_free in Hf. simpl in Hf. subst fl. cbn [db].
  assert (S : PyStr.split PyStr.space ("messages " ++ name) =
              ["messages"; name]).
  { change ("messages " ++ name)
      with ("messages" ++ String PyStr.space name).
    rewrite split_at_separator by reflexivity.
    rewrite split_without_separator; [reflexivity | apply of_int_no_space]. }
  unfold __format__, try_except.
  rewrite (format_fields_run sm cls s lg pr ck ("messages " ++ name)
             name (Z.of_nat n) name); try reflexivity.
  - unfold slice_to.
    replace (0 <=? Z.of_nat n) with true by (symmetry; apply Z.leb_le; lia).
    rewrite Nat2Z.id. reflexivity.
  - rewrite S. reflexivity.
  - rewrite S. reflexivity.
  - apply to_int_of_int_any.
  - rewrite S. reflexivity.
Qed.

Lemma format_messages_single_field_witness :
  __format__ sample_self "messages 5" two_masks_world =
  (Ret (Some "未找到 5 这个对话"), two_masks_world).
Proof.
  apply (format_messages_single_field sample_self two_masks_world 5).
  - discriminate.
  - reflexivity.
  - within_cap.
Defined.





(** ** Look-ups when the storage fails *)

(** X19.  When the storage fails under a look-up, [get_mask],
    [get_dialogue] and [get_messages] log the failure and return [None].
    For the first two that is also their answer when the row is missing;
    [get_messages] answers a missing dialogue with the empty list, so only
    there the caller can tell the two apart.  [get_messages] also returns
    [None] when the dialogue is found and loading its messages fails. *)
Theorem lookups_under_storage_failure :
  forall self w name text rest,
    initialised self ->
    let failed := mk_World (db w) (logged w ++ [text]) (printed w) (clock w)
                           rest in
    (faults w = Some text :: rest ->
       get_mask self name w = (Ret None, failed) /\
       get_dialogue self name w = (Ret None, failed) /\
       get_messages self name w = (Ret None, failed)) /\
    (faults w = None :: Some text :: rest ->
       has_dialogue name (db w) = true ->
       get_messages self name w = (Ret None, failed)) /\
    (faults w = [] ->
       has_dialogue name (db w) = false ->
       get_messages self name w = (Ret (Some []), w) /\
       get_dialogue self name w = (Ret None, w)).
Proof.
  intros [cls [sm|]] [s lg pr ck fl] name text rest Hi;
    [| exfalso; apply Hi; reflexivity].
  cbv zeta. cbn [db logged printed clock faults].
  split; [| split].
  - intros ->. repeat split; reflexivity.
  - intros -> H. destruct (has_dialogue_found _ _ H) as [d E].
    unfold found_dialogue in E.
    unfold get_messages, try_except, get_messages_body, bind, open_session,
      first, bind, storage_access.
    simpl. rewrite E. reflexivity.
  - intros -> H. split.
    + unfold get_messages, try_except. rewrite get_messages_body_run, H.
      reflexivity.
    + apply found_dialogue_none in H. unfold found_dialogue in H.
      unfold get_dialogue, try_except, get_dialogue_body, bind, open_session,
        first, bind, storage_access.
      simpl. rewrite H. reflexivity.
Qed.

Lemma lookups_under_storage_failure_witness :
  get_messages sample_self "D1"
               (set_faults [None; Some "disk I/O error"] two_masks_world) =
    (Ret None,
     mk_World (db two_masks_world) ["disk I/O error"] [] evening []) /\
  get_messages sample_self "D9" two_masks_world =
    (Ret (Some []), two_masks_world).
Proof.
  split.
  - apply (proj1 (proj2 (lookups_under_storage_failure
                           sample_self
                           (set_faults [None; Some "disk I/O error"]
                                       two_masks_world)
                           "D1" "disk I/O error" [] ltac:(discriminate))));
      reflexivity.
  - apply (proj2 (proj2 (lookups_under_storage_failure
                           sample_self two_masks_world
                           "D9" "" [] ltac:(discriminate))));
      reflexivity.
Defined.

(** ** Integer literals and ids at the edges *)

(** Digits and blanks outside ASCII are read as [int()] reads them; the
    separators 28 to 31 are not blanks for it. *)
Example to_int_other_digits :
  PyStr.to_int "１２" = Some 12 /\
  PyStr.to_int "٣_٤" = Some 34 /\
  PyStr.to_int (String (ascii_of_nat 194) (String (ascii_of_nat 160) "-5"))
    = Some (-5) /\
  PyStr.to_int (String "5" (String (ascii_of_nat 28) "")) = None /\
  PyStr.to_int "5é" = None.
Proof. repeat split; reflexivity. Qed.

(** With a count written in full-width digits the two newest messages of
    the dialogue are shown. *)
Example format_full_width_count :
  fst (__format__ sample_self "messages D1 ２" two_masks_world) =
  Ret (Some (shown_lines
               [Message.mk 2 GPT later TEXT "hi" true (Some "D1");
                Message.mk 1 USER noon TEXT "hello" true (Some "D1")])).
Proof. vm_compute. reflexivity. Qed.
